(** * Session-token registry and request lifecycle of the GameLift Streams
      sample web application

    A shallow embedding of the Express handlers of the sample server
    (create / poll-signal / reconnect / destroy a stream session, the
    periodic token sweep) and of the browser's connect and reconnect flows
    in [stream.js], with the properties the specification states about
    them. *)

From Stdlib Require Import ZArith Lia Ascii String.
From stdpp Require Import gmap strings list fin_maps pretty.

Local Open Scope string_scope.
Local Open Scope Z_scope.
Set Warnings "-register-all".

(** ** JavaScript values that cross the HTTP boundary *)

(** JSON documents: response bodies written by [res.json] and the values
    [JSON.parse] produces. *)
Inductive json : Type :=
  | JNull
  | JBool (b : bool)
  | JNum (z : Z)
  | JStr (s : string)
  | JArr (items : list json)
  | JObj (members : list (string * json)).

(** A string-valued field that may be missing ([undefined] or [null]). *)
Definition truthy (v : option string) : bool :=
  match v with
  | Some (String _ _) => true
  | _ => false
  end.

(** [obj[k] = v] on the members of an object: an existing property keeps
    its place, a new one goes last. *)
Fixpoint set_member (k : string) (v : json) (ms : list (string * json))
    : list (string * json) :=
  match ms with
  | [] => [(k, v)]
  | (k', v') :: rest =>
      if String.eqb k k' then (k, v) :: rest else (k', v') :: set_member k v rest
  end.

Record response : Type := Response { status : Z; body : json }.

(** [req.body] after [express.json()], with the fields the handlers read,
    and the [correlationId] the first middleware attaches to the request.
    The token, the identifiers and the offer are strings, as the handlers
    document them, or missing. Times are [Date.now()] milliseconds. *)
Record request : Type := Request {
  correlationId : string;
  Token : option string;
  StreamGroupId : option string;
  UserId : option string;
  ApplicationIdentifier : option string;
  SignalRequest : option string;
  AdditionalLaunchArgs : option json;
  AdditionalEnvironmentVariables : option json;
  Locations : option json
}.

(** ** Configuration and process environment *)

(** The fields of [config.js] the handlers use. *)
Record config : Type := Config {
  STREAM_CONNECTION_TIMEOUT_SECONDS : Z;
  GENERAL_ERROR_STATUS_CODE : Z;
  TOKEN_CLEANUP_INTERVAL_MS : Z
}.

Definition shipped_config : config :=
  {| STREAM_CONNECTION_TIMEOUT_SECONDS := 600;
     GENERAL_ERROR_STATUS_CODE := 502;
     TOKEN_CLEANUP_INTERVAL_MS := 60000 |}.

(** [const generalErrorStatusCode = 502] of the server file. *)
Definition generalErrorStatusCode : Z := 502.

(** The JavaScript runtime as the handlers see it: the deployment switch
    [IS_LOCAL], [process.env.STREAM_GROUP_ID], [process.argv], and the
    built-in JSON codec ([JSON_parse] answers [None] where [JSON.parse]
    throws). *)
Record runtime : Type := Runtime {
  IS_LOCAL : bool;
  env_STREAM_GROUP_ID : option string;
  argv : list string;
  JSON_parse : string -> option json;
  JSON_stringify : json -> string
}.

(** ** The streaming provider client *)

Record StartStreamSessionInput : Type := StartInput {
  start_Identifier : option string;
  start_AdditionalLaunchArgs : option json;
  start_AdditionalEnvironmentVariables : option json;
  start_UserId : option string;
  start_Protocol : string;
  start_SignalRequest : option string;
  start_ConnectionTimeoutSeconds : Z;
  start_SessionLengthSeconds : Z;
  start_ApplicationIdentifier : option string;
  start_Locations : option json
}.

(** [{ Identifier, StreamSessionIdentifier }], the argument of
    [getStreamSession] and [terminateStreamSession]. *)
Record SessionRef : Type := SessionRefOf {
  ref_Identifier : option string;
  ref_StreamSessionIdentifier : option string
}.

Record ConnectionInput : Type := ConnectionInputOf {
  conn_Identifier : option string;
  conn_StreamSessionIdentifier : option string;
  conn_SignalRequest : option string
}.

Record StreamSessionData : Type := StreamSessionDataOf {
  session_Status : string;
  session_SignalResponse : string
}.

(** What one SDK call comes back with: [Err message] is the [err] of the
    callback style and the rejection of the promise style. *)
Inductive reply (A : Type) : Type :=
  | Err (message : string)
  | Ok (data : A).
Arguments Err {A} message.
Arguments Ok {A} data.

(** The provider as the handlers use it; a value of this type is the
    answer the remote service gives to each request at the moment of the
    call (a stub, in the words of the specification). *)
Record provider : Type := Provider {
  startStreamSession : StartStreamSessionInput -> reply string;
  getStreamSession : SessionRef -> reply StreamSessionData;
  createStreamSessionConnection : ConnectionInput -> reply string;
  terminateStreamSession : SessionRef -> reply unit
}.

(** The calls a handler issued, in order. *)
Inductive provider_call : Type :=
  | CallStart (rq : StartStreamSessionInput)
  | CallGet (rq : SessionRef)
  | CallConnect (rq : ConnectionInput)
  | CallTerminate (rq : SessionRef).

(** ** The registry *)

Record ConnectionData : Type := ConnectionDataOf {
  cd_StreamGroupId : option string;
  cd_StreamSessionArn : string;
  cd_Timestamp : Z
}.

(** [connectionDatabase] (own properties of the object literal) together
    with the pending [setTimeout] removals: due time and token. *)
Record state : Type := State {
  connectionDatabase : gmap string ConnectionData;
  timers : list (Z * string)
}.

(** [connectionDatabase] is created by [{}], so a property read that finds
    no own property continues in [Object.prototype]. These are its
    members; each is a function or an object. *)
Definition Object_prototype : list string :=
  [ "constructor"; "__defineGetter__"; "__defineSetter__"; "hasOwnProperty";
    "__lookupGetter__"; "__lookupSetter__"; "isPrototypeOf";
    "propertyIsEnumerable"; "toString"; "valueOf"; "__proto__";
    "toLocaleString" ].

(** The value of [req.body.Token && connectionDatabase[req.body.Token]]. *)
Inductive connection_ref : Type :=
  | Falsy
  | Inherited (name : string)
  | Own (cd : ConnectionData).

Definition lookupToken (db : gmap string ConnectionData)
    (tok : option string) : connection_ref :=
  match tok with
  | Some (String _ _ as t) =>
      match db !! t with
      | Some cd => Own cd
      | None => if bool_decide (t ∈ Object_prototype) then Inherited t else Falsy
      end
  | _ => Falsy
  end.

Definition is_truthy (c : connection_ref) : bool :=
  match c with Falsy => false | _ => true end.

(** Property reads on the looked-up value; a member of [Object.prototype]
    has none of the three properties. *)
Definition get_StreamGroupId (c : connection_ref) : option string :=
  match c with Own cd => cd_StreamGroupId cd | _ => None end.

Definition get_StreamSessionArn (c : connection_ref) : option string :=
  match c with Own cd => Some (cd_StreamSessionArn cd) | _ => None end.

Definition get_Timestamp (c : connection_ref) : option Z :=
  match c with Own cd => Some (cd_Timestamp cd) | _ => None end.

(** [Date.now() - connectionData.Timestamp > STREAM_CONNECTION_TIMEOUT_SECONDS * 1000];
    with no timestamp the left side is [NaN] and the comparison is false. *)
Definition expired (cfg : config) (now : Z) (ts : option Z) : bool :=
  match ts with
  | Some t => bool_decide (now - t > STREAM_CONNECTION_TIMEOUT_SECONDS cfg * 1000)
  | None => false
  end.

(** ** Handlers *)

(** What a handler did: the response it sent, the state it left, the
    provider calls it made. *)
Record outcome : Type := Outcome {
  resp : response;
  after : state;
  calls : list provider_call
}.

Definition respond (code : Z) (b : list (string * json)) (st : state) : outcome :=
  {| resp := Response code (JObj b); after := st; calls := [] |}.

Section Handlers.

Variable rt : runtime.
Variable cfg : config.

(** *** [POST /api/CreateStreamSession] *)

Definition resolveStreamGroupId (req : request) : option string :=
  if IS_LOCAL rt then StreamGroupId req else env_STREAM_GROUP_ID rt.

Definition startRequestData (req : request) : StartStreamSessionInput :=
  {| start_Identifier := resolveStreamGroupId req;
     start_AdditionalLaunchArgs := AdditionalLaunchArgs req;
     start_AdditionalEnvironmentVariables := AdditionalEnvironmentVariables req;
     start_UserId := UserId req;
     start_Protocol := "WebRTC";
     start_SignalRequest := SignalRequest req;
     start_ConnectionTimeoutSeconds := STREAM_CONNECTION_TIMEOUT_SECONDS cfg;
     start_SessionLengthSeconds := 3600;
     start_ApplicationIdentifier := ApplicationIdentifier req;
     start_Locations := Locations req |}.

(** The callback given to [startStreamSession]. [uuid] is the value of
    [crypto.randomUUID()] and [now] that of [Date.now()] when it runs. *)
Definition CreateStreamSession_callback (uuid : string) (now : Z)
    (req : request) (r : reply string) (st : state) : response * state :=
  match r with
  | Err message =>
      (Response (GENERAL_ERROR_STATUS_CODE cfg) (JObj [("error", JStr message)]), st)
  | Ok arn =>
      (Response 200 (JObj [("Token", JStr uuid)]),
       {| connectionDatabase :=
            <[uuid := {| cd_StreamGroupId := resolveStreamGroupId req;
                         cd_StreamSessionArn := arn;
                         cd_Timestamp := now |}]> (connectionDatabase st);
          timers := (now + 24 * 60 * 60 * 1000, uuid) :: timers st |})
  end.

Definition CreateStreamSession (P : provider) (uuid : string) (now : Z)
    (req : request) (st : state) : outcome :=
  if negb (IS_LOCAL rt) && negb (truthy (env_STREAM_GROUP_ID rt)) then
    respond 500 [("error", JStr "Server Configuration Error");
                 ("message", JStr "STREAM_GROUP_ID not configured")] st
  else
    let requestData := startRequestData req in
    let '(r, st') :=
      CreateStreamSession_callback uuid now req (startStreamSession P requestData) st in
    {| resp := r; after := st'; calls := [CallStart requestData] |}.

(** *** [POST /api/GetSignalResponse] *)

(** The [--override_protocol] block: parse the payload, set
    [webSdkProtocolUrl], serialise again; the original payload when
    [JSON.parse] or the assignment throws. An assignment to a property
    of [null] throws; on a number, string or boolean it does nothing,
    and on an array it adds a property [JSON.stringify] does not print. *)
Definition overrideProtocol (now : Z) (signalResponse : string) : string :=
  match JSON_parse rt signalResponse with
  | None => signalResponse
  | Some JNull => signalResponse
  | Some (JObj ms) =>
      JSON_stringify rt
        (JObj (set_member "webSdkProtocolUrl"
                 (JStr ("/override_protocol.js?" +:+ pretty now)) ms))
  | Some v => JSON_stringify rt v
  end.

Definition notFound_data : list (string * json) :=
  [("error", JStr "Connection data not found");
   ("message", JStr "Invalid token or missing stream group ID")].

(** [now] is [Date.now()] at the expiry check, [now'] at the override.
    The 502 body is the one sent outside development mode, where it
    carries no stack trace. *)
Definition GetSignalResponse (P : provider) (now now' : Z)
    (req : request) (st : state) : outcome :=
  let connectionData := lookupToken (connectionDatabase st) (Token req) in
  if negb (is_truthy connectionData) || negb (truthy (get_StreamGroupId connectionData)) then
    respond 404 notFound_data st
  else if expired cfg now (get_Timestamp connectionData) then
    respond 404 [("error", JStr "Connection token expired");
                 ("correlationId", JStr (correlationId req))] st
  else
    let requestData :=
      {| ref_Identifier := get_StreamGroupId connectionData;
         ref_StreamSessionIdentifier := get_StreamSessionArn connectionData |} in
    let r :=
      match getStreamSession P requestData with
      | Err message =>
          Response generalErrorStatusCode
            (JObj [("error", JStr "An error occurred while processing your request");
                   ("correlationId", JStr (correlationId req));
                   ("message", JStr ("Failed to get stream session: " +:+ message))])
      | Ok streamSessionData =>
          if String.eqb (session_Status streamSessionData) "ACTIVATING" then
            Response 200 (JObj [("SignalResponse", JStr EmptyString)])
          else if String.eqb (session_Status streamSessionData) "ACTIVE" then
            let signalResponse := session_SignalResponse streamSessionData in
            let signalResponse :=
              if bool_decide ("--override_protocol" ∈ argv rt)
              then overrideProtocol now' signalResponse
              else signalResponse in
            Response 200 (JObj [("SignalResponse", JStr signalResponse)])
          else
            Response 404
              (JObj [("error", JStr "Unexpected stream status");
                     ("status", JStr (session_Status streamSessionData));
                     ("correlationId", JStr (correlationId req))])
      end in
    {| resp := r; after := st; calls := [CallGet requestData] |}.

(** *** [POST /api/ReconnectStreamSession] *)

Definition ReconnectStreamSession (P : provider) (req : request) (st : state)
    : outcome :=
  let connectionData := lookupToken (connectionDatabase st) (Token req) in
  if negb (is_truthy connectionData) then
    respond 404 [] st
  else
    let requestData :=
      {| conn_Identifier := get_StreamGroupId connectionData;
         conn_StreamSessionIdentifier := get_StreamSessionArn connectionData;
         conn_SignalRequest := SignalRequest req |} in
    let r :=
      match createStreamSessionConnection P requestData with
      | Err _ => Response generalErrorStatusCode (JObj [])
      | Ok signalResponse => Response 200 (JObj [("SignalResponse", JStr signalResponse)])
      end in
    {| resp := r; after := st; calls := [CallConnect requestData] |}.

(** *** [POST /api/DestroyStreamSession] *)

(** The callback given to [terminateStreamSession]; [delete] removes an
    own property and does nothing when there is none. *)
Definition DestroyStreamSession_callback (req : request) (r : reply unit)
    (st : state) : response * state :=
  match r with
  | Err _ => (Response generalErrorStatusCode (JObj []), st)
  | Ok _ =>
      (Response 200 (JObj []),
       {| connectionDatabase :=
            match Token req with
            | Some t => delete t (connectionDatabase st)
            | None => connectionDatabase st
            end;
          timers := timers st |})
  end.

Definition DestroyStreamSession (P : provider) (req : request) (st : state)
    : outcome :=
  let connectionData := lookupToken (connectionDatabase st) (Token req) in
  if negb (is_truthy connectionData) then
    respond 404 [] st
  else
    let requestData :=
      {| ref_Identifier := get_StreamGroupId connectionData;
         ref_StreamSessionIdentifier := get_StreamSessionArn connectionData |} in
    let '(r, st') :=
      DestroyStreamSession_callback req (terminateStreamSession P requestData) st in
    {| resp := r; after := st'; calls := [CallTerminate requestData] |}.

(** *** Timers *)

(** The token cleanup job, run by [setInterval] every
    [TOKEN_CLEANUP_INTERVAL_MS]: every entry whose age exceeds the
    timeout is deleted. *)
Definition cleanup (now : Z) (st : state) : state :=
  {| connectionDatabase :=
       filter (λ kv, ¬ (now - cd_Timestamp kv.2 > STREAM_CONNECTION_TIMEOUT_SECONDS cfg * 1000))
              (connectionDatabase st);
     timers := timers st |}.

(** The [setTimeout] armed by a successful create, when it fires. *)
Definition removal_fires (tok : string) (st : state) : state :=
  {| connectionDatabase := delete tok (connectionDatabase st);
     timers := filter (λ dt, dt.2 ≠ tok) (timers st) |}.

End Handlers.

(** ** A JSON codec for running the handlers

    [JSON.parse] and [JSON.stringify] on the JSON texts built from
    objects, arrays, integers, the three literals and strings without
    escape sequences; keys that are array indices and numbers with a
    fraction or an exponent are outside this fragment. Of two members
    with one key the later value wins, in the place of the earlier. The
    theorems below hold for every codec; this one runs the examples. *)
Module JSONText.

Definition dquote : ascii := "034"%char.
Definition backslash : ascii := "092"%char.

Definition is_ws (c : ascii) : bool :=
  Ascii.eqb c " " || Ascii.eqb c "009" || Ascii.eqb c "010" || Ascii.eqb c "013".

Definition is_digit (c : ascii) : bool :=
  (48 <=? nat_of_ascii c)%nat && (nat_of_ascii c <=? 57)%nat.

Fixpoint skip_ws (s : string) : string :=
  match s with
  | String c r => if is_ws c then skip_ws r else s
  | EmptyString => s
  end.

(** The characters of a string literal after its opening quote. *)
Fixpoint read_chars (s : string) : option (string * string) :=
  match s with
  | EmptyString => None
  | String c r =>
      if Ascii.eqb c dquote then Some (EmptyString, r)
      else if Ascii.eqb c backslash || (nat_of_ascii c <? 32)%nat then None
      else match read_chars r with
           | Some (t, r') => Some (String c t, r')
           | None => None
           end
  end.

Fixpoint read_digits (acc : Z) (s : string) : Z * string :=
  match s with
  | String c r =>
      if is_digit c then read_digits (10 * acc + (Z.of_nat (nat_of_ascii c) - 48)) r
      else (acc, s)
  | EmptyString => (acc, s)
  end.

Definition ends_number (s : string) : bool :=
  match s with
  | String c _ => negb (Ascii.eqb c "." || Ascii.eqb c "e" || Ascii.eqb c "E" || is_digit c)
  | EmptyString => true
  end.

Definition read_unsigned (s : string) : option (Z * string) :=
  match s with
  | String c r =>
      if Ascii.eqb c "0" then (if ends_number r then Some (0, r) else None)
      else if is_digit c then
        let '(z, r') := read_digits 0 s in
        if ends_number r' then Some (z, r') else None
      else None
  | EmptyString => None
  end.

Definition read_number (s : string) : option (Z * string) :=
  match s with
  | String "-" r =>
      match read_unsigned r with
      | Some (z, r') => Some (- z, r')
      | None => None
      end
  | _ => read_unsigned s
  end.

Fixpoint literal (lit s : string) : option string :=
  match lit, s with
  | EmptyString, _ => Some s
  | String a lit', String b s' => if Ascii.eqb a b then literal lit' s' else None
  | _, _ => None
  end.

Fixpoint parse_value (n : nat) (s : string) : option (json * string) :=
  match n with
  | O => None
  | S n =>
      match skip_ws s with
      | String "{" r =>
          match skip_ws r with
          | String "}" r' => Some (JObj [], r')
          | r1 =>
              match parse_members n [] r1 with
              | Some (ms, r') => Some (JObj ms, r')
              | None => None
              end
          end
      | String "[" r =>
          match skip_ws r with
          | String "]" r' => Some (JArr [], r')
          | r1 =>
              match parse_items n r1 with
              | Some (xs, r') => Some (JArr xs, r')
              | None => None
              end
          end
      | String "t" _ as s1 => option_map (pair (JBool true)) (literal "true" s1)
      | String "f" _ as s1 => option_map (pair (JBool false)) (literal "false" s1)
      | String "n" _ as s1 => option_map (pair JNull) (literal "null" s1)
      | String c r as s1 =>
          if Ascii.eqb c dquote then
            match read_chars r with
            | Some (t, r') => Some (JStr t, r')
            | None => None
            end
          else
            match read_number s1 with
            | Some (z, r') => Some (JNum z, r')
            | None => None
            end
      | EmptyString => None
      end
  end
with parse_members (n : nat) (acc : list (string * json)) (s : string)
    : option (list (string * json) * string) :=
  match n with
  | O => None
  | S n =>
      match s with
      | String c r =>
          if Ascii.eqb c dquote then
            match read_chars r with
            | Some (k, r1) =>
                match skip_ws r1 with
                | String ":" r2 =>
                    match parse_value n r2 with
                    | Some (v, r3) =>
                        match skip_ws r3 with
                        | String "," r4 => parse_members n (set_member k v acc) (skip_ws r4)
                        | String "}" r4 => Some (set_member k v acc, r4)
                        | _ => None
                        end
                    | None => None
                    end
                | _ => None
                end
            | None => None
            end
          else None
      | EmptyString => None
      end
  end
with parse_items (n : nat) (s : string) : option (list json * string) :=
  match n with
  | O => None
  | S n =>
      match parse_value n s with
      | Some (v, r) =>
          match skip_ws r with
          | String "," r1 =>
              match parse_items n r1 with
              | Some (xs, r2) => Some (v :: xs, r2)
              | None => None
              end
          | String "]" r1 => Some ([v], r1)
          | _ => None
          end
      | None => None
      end
  end.

Definition parse (s : string) : option json :=
  match parse_value (S (String.length s)) s with
  | Some (v, r) => match skip_ws r with EmptyString => Some v | _ => None end
  | None => None
  end.

Fixpoint escape (s : string) : string :=
  match s with
  | EmptyString => EmptyString
  | String c r =>
      if Ascii.eqb c dquote || Ascii.eqb c backslash
      then String backslash (String c (escape r))
      else String c (escape r)
  end.

Definition quote (s : string) : string :=
  String dquote (escape s +:+ String dquote EmptyString).

Fixpoint stringify (j : json) : string :=
  match j with
  | JNull => "null"
  | JBool true => "true"
  | JBool false => "false"
  | JNum z => pretty z
  | JStr s => quote s
  | JArr items =>
      "[" +:+
      (fix go (xs : list json) : string :=
         match xs with
         | [] => EmptyString
         | [x] => stringify x
         | x :: rest => stringify x +:+ "," +:+ go rest
         end) items +:+ "]"
  | JObj members =>
      "{" +:+
      (fix go (ms : list (string * json)) : string :=
         match ms with
         | [] => EmptyString
         | [(k, v)] => quote k +:+ ":" +:+ stringify v
         | (k, v) :: rest => quote k +:+ ":" +:+ stringify v +:+ "," +:+ go rest
         end) members +:+ "}"
  end.

End JSONText.

(** ** The browser: connecting and reconnecting ([stream.js]) *)

Module Browser.

Local Open Scope list_scope.

(** The calls of the two flows that can throw. The helpers
    [appShowPanel], [doPost], [getQueryParams], [setQueryParams],
    [appShowReconnectLinks], [appGoFullscreen] and the streaming SDK
    object are defined outside the files at hand, so whether a call
    returns or throws is left to the [world]. [LoadingScreenStart] and
    [LoadingScreenStop] catch whatever they raise and always return. *)
Inductive site : Type :=
  | AtHandleOrientation
  | AtShowConnecting
  | AtDisableMetrics
  | AtGenerateSignalRequest
  | AtReadSetup
  | AtCreate
  | AtProcessSignalResponse
  | AtSetQueryParams
  | AtShowReconnectLinks
  | AtShowStreaming
  | AtLayout
  | AtGetQueryParams
  | AtReconnect
  | AtClose
  | AtShowError.

(** What the page has done, one entry per call that returned. *)
Inductive event : Type :=
  | AudioStart
  | AudioRemove
  | ShowPanel (panel : string)
  | MetricsDisabled
  | LoadingStart
  | LoadingStop
  | SignalRequestGenerated
  | SetupRead (isLocal : bool)
  | Posted (path : string)
  | Slept
  | SignalResponseProcessed (answer : string)
  | QueryParamsSet (isLocal : bool)
  | ReconnectLinksShown
  | LayoutApplied
  | TokenRead
  | PeerClose.

(** One run of the page: which calls throw, what [handleOrientation]
    returns, whether the user agent is WebKit, the successive results
    of polling [/api/GetSignalResponse] ([None]: [doPost] throws or the
    reply has no [SignalResponse]), and the [SignalResponse] of the
    reconnect request. *)
Record world : Type := World {
  throws : site → bool;
  orientation_ok : bool;
  webkit : bool;
  answers : list (option string);
  reconnect_answer : string
}.

(** How a piece of the flow ends: it returns, it throws, or it is still
    waiting for a poll answer the world has not scripted. *)
Inductive completion (A : Type) : Type :=
  | Normal (a : A)
  | Thrown
  | Waiting.
Arguments Normal {A} a.
Arguments Thrown {A}.
Arguments Waiting {A}.

Definition action (A : Type) : Type := (list event * completion A)%type.

Definition trace {A} (m : action A) : list event := fst m.
Definition ending {A} (m : action A) : completion A := snd m.

Definition ret {A} (a : A) : action A := ([], Normal a).

Definition bind {A B} (m : action A) (k : A → action B) : action B :=
  match m with
  | (tr, Normal a) => let '(tr', c) := k a in (tr ++ tr', c)
  | (tr, Thrown) => (tr, Thrown)
  | (tr, Waiting) => (tr, Waiting)
  end.

Notation "m ;; k" := (bind m (λ _, k)) (at level 100, right associativity).

Definition emit (e : event) : action unit := ([e], Normal tt).

Definition call (w : world) (s : site) (e : event) : action unit :=
  if throws w s then ([], Thrown) else emit e.

(** [try { body } catch (e) { handler }]. *)
Definition try_catch {A} (body handler : action A) : action A :=
  match body with
  | (tr, Thrown) => let '(tr', c) := handler in (tr ++ tr', c)
  | other => other
  end.

(** [... finally { cleanup }], for a cleanup that does not throw and
    may look at what has happened so far. *)
Definition finally {A} (m : action A) (cleanup : list event → list event) : action A :=
  match m with
  | (tr, Waiting) => (tr, Waiting)
  | (tr, c) => (tr ++ cleanup tr, c)
  end.

(** [while (!signalResponse.length) { sleep 1 s; poll }]. With no answer
    left the loop has slept once more and waits for the poll. *)
Fixpoint poll_loop (rest : list (option string)) : action string :=
  match rest with
  | [] => ([Slept], Waiting)
  | None :: _ => ([Slept], Thrown)
  | Some signalResponse :: rest' =>
      match signalResponse with
      | EmptyString =>
          let '(tr, c) := poll_loop rest' in
          (Slept :: Posted "/api/GetSignalResponse" :: tr, c)
      | _ => ([Slept; Posted "/api/GetSignalResponse"], Normal signalResponse)
      end
  end.

Definition is_audio_start (e : event) : bool :=
  match e with AudioStart => true | _ => false end.

(** The [try] block of [appStartStreaming]. *)
Definition appStartStreaming_try (isLocal : bool) (w : world) : action unit :=
  if throws w AtHandleOrientation then ([], Thrown)
  else if negb (orientation_ok w) then ret tt
  else
    (if webkit w then emit AudioStart else ret tt) ;;
    call w AtShowConnecting (ShowPanel "appConnecting") ;;
    call w AtDisableMetrics MetricsDisabled ;;
    emit LoadingStart ;;
    call w AtGenerateSignalRequest SignalRequestGenerated ;;
    call w AtReadSetup (SetupRead isLocal) ;;
    call w AtCreate (Posted "/api/CreateStreamSession") ;;
    bind (poll_loop (answers w)) (λ signalResponse,
      call w AtProcessSignalResponse (SignalResponseProcessed signalResponse) ;;
      emit LoadingStop ;;
      call w AtSetQueryParams (QueryParamsSet isLocal) ;;
      call w AtShowReconnectLinks ReconnectLinksShown ;;
      call w AtShowStreaming (ShowPanel "appStreaming") ;;
      call w AtLayout LayoutApplied).

(** A [catch] block of the two flows: stop the loading screen, close
    the peer, show the error panel. *)
Definition on_error (panel : string) (w : world) : action unit :=
  emit LoadingStop ;;
  call w AtClose PeerClose ;;
  call w AtShowError (ShowPanel panel).

Definition appStartStreaming (isLocal : bool) (w : world) : action unit :=
  finally (try_catch (appStartStreaming_try isLocal w) (on_error "appError" w))
    (λ tr, if existsb is_audio_start tr then [AudioRemove] else []).

(** The [try] block of [appReconnectStreaming]. *)
Definition appReconnectStreaming_try (w : world) : action unit :=
  call w AtShowConnecting (ShowPanel "appConnecting") ;;
  emit LoadingStart ;;
  call w AtGenerateSignalRequest SignalRequestGenerated ;;
  call w AtReconnect (Posted "/api/ReconnectStreamSession") ;;
  call w AtProcessSignalResponse (SignalResponseProcessed (reconnect_answer w)) ;;
  emit LoadingStop ;;
  call w AtShowStreaming (ShowPanel "appStreaming").

Definition appReconnectStreaming (w : world) : action unit :=
  call w AtGetQueryParams TokenRead ;;
  try_catch (appReconnectStreaming_try w) (on_error "appReconnectError" w).

(** The two flows under one name. *)
Inductive flow : Type :=
  | Start (isLocal : bool)
  | Reconnect.

Definition try_block (f : flow) (w : world) : action unit :=
  match f with
  | Start isLocal => appStartStreaming_try isLocal w
  | Reconnect => appReconnectStreaming_try w
  end.

Definition error_panel (f : flow) : string :=
  match f with
  | Start _ => "appError"
  | Reconnect => "appReconnectError"
  end.

Definition run (f : flow) (w : world) : action unit :=
  match f with
  | Start isLocal => appStartStreaming isLocal w
  | Reconnect => appReconnectStreaming w
  end.

(** The [try] block is entered: always in [appStartStreaming]; in
    [appReconnectStreaming] once the token has been read. *)
Definition enters_try (f : flow) (w : world) : bool :=
  match f with
  | Start _ => true
  | Reconnect => negb (throws w AtGetQueryParams)
  end.

(** *** Reading traces *)

Definition shows (panel : string) (e : event) : bool :=
  match e with ShowPanel p => String.eqb panel p | _ => false end.

Definition is_close (e : event) : bool :=
  match e with PeerClose => true | _ => false end.

(** Every display of [panel] comes right after a close of the peer;
    [closed] tells whether the event before the trace was one. *)
Fixpoint guarded (panel : string) (closed : bool) (tr : list event) : bool :=
  match tr with
  | [] => true
  | e :: rest => (if shows panel e then closed else true) && guarded panel (is_close e) rest
  end.

(** The panel on display at the end of a trace. *)
Definition panel_of (e : event) : option string :=
  match e with ShowPanel p => Some p | _ => None end.

Definition displayed (tr : list event) : option string :=
  last (omap panel_of tr).

(** No event of the trace displays [panel]. *)
Definition silent (panel : string) (tr : list event) : bool :=
  forallb (λ e, negb (shows panel e)) tr.

(** Whether the last thing that happened was a close of the peer. *)
Definition closed_after (closed : bool) (tr : list event) : bool :=
  match last tr with
  | Some e => is_close e
  | None => closed
  end.

(** A world in which nothing throws but the create request. *)
Definition create_fails : world :=
  {| throws := λ s, match s with AtCreate => true | _ => false end;
     orientation_ok := true; webkit := true; answers := [];
     reconnect_answer := "ANSWER2" |}.

(** A world in which the session activates on the third poll and
    everything returns. *)
Definition all_well : world :=
  {| throws := λ _, false; orientation_ok := true; webkit := false;
     answers := [Some EmptyString; Some EmptyString; Some "ANSWER"];
     reconnect_answer := "ANSWER2" |}.

(** A page on which [window.myGameLiftStreams] is [null]: each call of a
    method of it throws a [TypeError], everything else returns. *)
Definition sdk_object_null (isWebkit : bool) (polled : list (option string)) : world :=
  {| throws := λ s, match s with
                    | AtGenerateSignalRequest | AtProcessSignalResponse | AtClose => true
                    | _ => false
                    end;
     orientation_ok := true; webkit := isWebkit; answers := polled;
     reconnect_answer := EmptyString |}.

(** A world in which the reconnect request throws. *)
Definition reconnect_fails : world :=
  {| throws := λ s, match s with AtReconnect => true | _ => false end;
     orientation_ok := true; webkit := false; answers := [];
     reconnect_answer := "ANSWER2" |}.

End Browser.

(** ** Sample inputs *)

Definition node_local : runtime :=
  {| IS_LOCAL := true;
     env_STREAM_GROUP_ID := None;
     argv := ["node"; "server.js"];
     JSON_parse := JSONText.parse;
     JSON_stringify := JSONText.stringify |}.

Definition node_override : runtime :=
  {| IS_LOCAL := true;
     env_STREAM_GROUP_ID := None;
     argv := ["node"; "server.js"; "--override_protocol"];
     JSON_parse := JSONText.parse;
     JSON_stringify := JSONText.stringify |}.

(** A request body [{ Token: t }], or [{}] for [None]. *)
Definition token_request (t : option string) : request :=
  {| correlationId := "c-1"; Token := t; StreamGroupId := None; UserId := None;
     ApplicationIdentifier := None; SignalRequest := None;
     AdditionalLaunchArgs := None; AdditionalEnvironmentVariables := None;
     Locations := None |}.

(** [{ Token: t, SignalRequest: offer }]. *)
Definition reconnect_request (t offer : string) : request :=
  {| correlationId := "c-2"; Token := Some t; StreamGroupId := None; UserId := None;
     ApplicationIdentifier := None; SignalRequest := Some offer;
     AdditionalLaunchArgs := None; AdditionalEnvironmentVariables := None;
     Locations := None |}.

(** [{ StreamGroupId: "sg-1", UserId: "p1", SignalRequest: "OFFER" }]. *)
Definition create_request : request :=
  {| correlationId := "c-3"; Token := None; StreamGroupId := Some "sg-1";
     UserId := Some "p1"; ApplicationIdentifier := None; SignalRequest := Some "OFFER";
     AdditionalLaunchArgs := None; AdditionalEnvironmentVariables := None;
     Locations := None |}.

(** A provider that gives the same four answers whatever it is asked. *)
Definition stub (start : reply string) (get : reply StreamSessionData)
    (conn : reply string) (term : reply unit) : provider :=
  {| startStreamSession := λ _, start;
     getStreamSession := λ _, get;
     createStreamSessionConnection := λ _, conn;
     terminateStreamSession := λ _, term |}.

Definition healthy (status payload : string) : provider :=
  stub (Ok "arn:1") (Ok (StreamSessionDataOf status payload)) (Ok "ANSWER2") (Ok tt).

Definition failing : provider :=
  stub (Err "boom") (Err "boom") (Err "boom") (Err "boom").

Definition no_sessions : state := {| connectionDatabase := ∅; timers := [] |}.

(** One session, created at time 1000 under token ["T"]. *)
Definition one_session : state :=
  {| connectionDatabase :=
       {[ "T" := {| cd_StreamGroupId := Some "sg-1";
                    cd_StreamSessionArn := "arn:1";
                    cd_Timestamp := 1000 |} ]};
     timers := [(1000 + 24 * 60 * 60 * 1000, "T")] |}.

(** ** Requests and responses in the statements *)

(** The provider request a handler builds from a stored record. *)
Definition session_ref (cd : ConnectionData) : SessionRef :=
  {| ref_Identifier := cd_StreamGroupId cd;
     ref_StreamSessionIdentifier := Some (cd_StreamSessionArn cd) |}.

Definition connection_input (cd : ConnectionData) (offer : option string)
    : ConnectionInput :=
  {| conn_Identifier := cd_StreamGroupId cd;
     conn_StreamSessionIdentifier := Some (cd_StreamSessionArn cd);
     conn_SignalRequest := offer |}.

(** A member of a response body, [None] when the body has no such key. *)
Fixpoint get_member (k : string) (ms : list (string * json)) : option json :=
  match ms with
  | [] => None
  | (k', v) :: rest => if String.eqb k k' then Some v else get_member k rest
  end.

Definition member (k : string) (r : response) : option json :=
  match body r with
  | JObj ms => get_member k ms
  | _ => None
  end.

(** The provider is reached in local mode, and in hosted mode when
    [STREAM_GROUP_ID] is set. *)
Definition provider_reached (rt : runtime) : bool :=
  IS_LOCAL rt || truthy (env_STREAM_GROUP_ID rt).

(** ** Command line and deployment *)

(** [process.argv.indexOf(param)]: the place of the first occurrence,
    [-1] when there is none. *)
Fixpoint indexOf (l : list string) (x : string) : Z :=
  match l with
  | [] => -1
  | a :: rest =>
      if String.eqb a x then 0
      else let i := indexOf rest x in if i =? -1 then -1 else i + 1
  end.

(** [arr[i]], [undefined] outside the array. *)
Definition at_index (l : list string) (i : Z) : option string :=
  if i <? 0 then None else l !! Z.to_nat i.

Definition getCommandLineValue (args : list string) (param : string) : option string :=
  let idx := indexOf args param in
  if idx =? -1 then None else at_index args (idx + 1).

(** [process.env] before and after; the value found is returned. *)
Definition applyCommandLineEnvOverride (args : list string) (param key : string)
    (env : gmap string string) : option string * gmap string string :=
  let val := getCommandLineValue args param in
  (val,
   match val with
   | Some (String _ _ as v) => <[key := v]> env
   | _ => env
   end).

Definition is_alnum (c : ascii) : bool :=
  let n := nat_of_ascii c in
  ((48 <=? n) && (n <=? 57) || (65 <=? n) && (n <=? 90) || (97 <=? n) && (n <=? 122))%nat.

Fixpoint all_alnum (s : string) : bool :=
  match s with
  | EmptyString => true
  | String c rest => is_alnum c && all_alnum rest
  end.

(** [s.match(/^sg-[a-zA-Z0-9]{least,}$/)] finds a match. *)
Definition sg_pattern (least : nat) (s : string) : bool :=
  match s with
  | String "s" (String "g" (String "-" rest)) =>
      all_alnum rest && (least <=? String.length rest)%nat
  | _ => false
  end.

(** The check of the entry file of the CDK app, taken by itself: the
    stream group id it hands on, [None] where the check throws. (The
    stack module the entry file imports runs [validateStreamGroupId]
    below on the same variable when it is loaded.) *)
Definition cdk_entry (STREAM_GROUP_ID : option string) : option string :=
  match STREAM_GROUP_ID with
  | Some id => if negb (truthy (Some id)) || negb (sg_pattern 5 id) then None else Some id
  | None => None
  end.

(** [validateStreamGroupId] of the stack file, [None] where it throws. *)
Definition validateStreamGroupId (id : string) : option string :=
  if negb (sg_pattern 9 id) then None else Some id.

(** The stack file's own app: [process.env.STREAM_GROUP_ID || 'sg-000000000']
    goes through [validateStreamGroupId]. *)
Definition stack_entry (STREAM_GROUP_ID : option string) : option string :=
  validateStreamGroupId
    (match STREAM_GROUP_ID with
     | Some (String _ _ as id) => id
     | _ => "sg-000000000"
     end).

(** The server as the stack deploys it: hosted mode, with the stack's
    [streamGroupId] in the function's environment. *)
Definition deployed (streamGroupId : string) (rt : runtime) : runtime :=
  {| IS_LOCAL := false;
     env_STREAM_GROUP_ID := Some streamGroupId;
     argv := argv rt;
     JSON_parse := JSON_parse rt;
     JSON_stringify := JSON_stringify rt |}.

(** ** The server over time *)

(** What the server does between two requests: it handles a request,
    the token cleanup job runs, or a removal armed by a Create fires. *)
Inductive happening : Type :=
  | Created (P : provider) (uuid : string) (now : Z) (req : request)
  | Polled (P : provider) (now now' : Z) (req : request)
  | Reconnected (P : provider) (req : request)
  | Destroyed (P : provider) (req : request)
  | Swept (now : Z)
  | Removed (token : string).

Definition happen (rt : runtime) (cfg : config) (st : state) (h : happening) : state :=
  match h with
  | Created P uuid now req => after (CreateStreamSession rt cfg P uuid now req st)
  | Polled P now now' req => after (GetSignalResponse rt cfg P now now' req st)
  | Reconnected P req => after (ReconnectStreamSession P req st)
  | Destroyed P req => after (DestroyStreamSession P req st)
  | Swept now => cleanup cfg now st
  | Removed token => removal_fires token st
  end.

Definition history (rt : runtime) (cfg : config) (hs : list happening) (st : state)
    : state :=
  foldl (happen rt cfg) st hs.

(** A happening that is none of the three ways in which the record of
    token [t], stored at time [created], goes away: a Destroy of [t], a
    sweep when the record is older than the timeout, the removal armed
    for [t]. A Create that mints [t] again is left out as well. *)
Definition spares (cfg : config) (t : string) (created : Z) (h : happening) : Prop :=
  match h with
  | Created _ uuid _ _ => uuid ≠ t
  | Destroyed _ req => Token req ≠ Some t
  | Swept now => now - created ≤ STREAM_CONNECTION_TIMEOUT_SECONDS cfg * 1000
  | Removed token => token ≠ t
  | Polled _ _ _ _ | Reconnected _ _ => True
  end.

(** ** Request bodies *)

(** The request a handler sees for a JSON body: [req.body.X] is the
    member named [X], and a member that is missing or [null] is a missing
    field. (Bodies whose identifiers are not strings are outside the
    request type.) *)
Definition string_field (k : string) (b : list (string * json)) : option string :=
  match get_member k b with
  | Some (JStr s) => Some s
  | _ => None
  end.

Definition request_of_body (cid : string) (b : list (string * json)) : request :=
  {| correlationId := cid;
     Token := string_field "Token" b;
     StreamGroupId := string_field "StreamGroupId" b;
     UserId := string_field "UserId" b;
     ApplicationIdentifier := string_field "ApplicationIdentifier" b;
     SignalRequest := string_field "SignalRequest" b;
     AdditionalLaunchArgs := get_member "AdditionalLaunchArgs" b;
     AdditionalEnvironmentVariables := get_member "AdditionalEnvironmentVariables" b;
     Locations := get_member "Locations" b |}.

(** ** The browser: the rest of [stream.js] and what it calls in [mobile.js] *)

Module Page.

Import Browser.
Local Open Scope list_scope.

(** *** [mobile.js] *)

(** [hay.includes(needle)]. *)
Fixpoint includes (needle hay : string) : bool :=
  match hay with
  | EmptyString => String.prefix needle EmptyString
  | String _ rest => String.prefix needle hay || includes needle rest
  end.

Definition lower_ascii (c : ascii) : ascii :=
  let n := nat_of_ascii c in
  if ((65 <=? n) && (n <=? 90))%nat then ascii_of_nat (n + 32) else c.

Fixpoint lower (s : string) : string :=
  match s with
  | EmptyString => EmptyString
  | String c rest => String (lower_ascii c) (lower rest)
  end.

(** [/name/i.test(hay)] for a name made of letters and spaces. *)
Definition includes_ci (name hay : string) : bool :=
  includes (lower name) (lower hay).

(** What [checkIfMobile] and [handleOrientation] read from the browser:
    the user agent, the four touch tests, and whether the media query
    [(orientation: portrait)] matches. *)
Record navigator : Type := Navigator {
  userAgent : string;
  maxTouchPoints_positive : bool;
  ontouchstart : bool;
  hover_none : bool;
  pointer_coarse : bool;
  portrait : bool
}.

Definition mobileRegex : list string :=
  ["Android"; "webOS"; "iPhone"; "iPad"; "iPod"; "BlackBerry"; "IEMobile"; "Opera Mini"].

Definition checkIfMobile (n : navigator) : bool :=
  let isMobileDevice := existsb (λ name, includes_ci name (userAgent n)) mobileRegex in
  let isChromeMobile :=
    includes "Chrome" (userAgent n) &&
    (maxTouchPoints_positive n || ontouchstart n || hover_none n || pointer_coarse n) in
  isMobileDevice || isChromeMobile.

(** The style of the rotate message and the [display] of the setup
    panel; [None] where the page has no such element. *)
Record rotate_style : Type := RotateStyle {
  rotate_display : string;
  rotate_position : string;
  rotate_zIndex : string
}.

Record dom : Type := Dom {
  appSetup : option string;
  rotateMessage : option rotate_style
}.

Definition handleOrientation (n : navigator) (d : dom) : bool * dom :=
  if checkIfMobile n then
    if portrait n then
      (false,
       {| appSetup := (λ _, "none") <$> appSetup d;
          rotateMessage :=
            (λ _, {| rotate_display := "flex"; rotate_position := "fixed";
                     rotate_zIndex := "9999" |}) <$> rotateMessage d |})
    else
      (true,
       {| appSetup := (λ _, "block") <$> appSetup d;
          rotateMessage :=
            (λ r, {| rotate_display := "none"; rotate_position := rotate_position r;
                     rotate_zIndex := rotate_zIndex r |}) <$> rotateMessage d |})
  else
    (true,
     {| appSetup := (λ _, "block") <$> appSetup d;
        rotateMessage :=
          (λ r, {| rotate_display := "none"; rotate_position := rotate_position r;
                   rotate_zIndex := rotate_zIndex r |}) <$> rotateMessage d |}).

(** *** [safeJSONParse] and the body of the create request *)

Definition is_array (v : option json) : bool :=
  match v with Some (JArr _) => true | _ => false end.

Definition default_region : option json := Some (JArr [JStr "us-west-2"]).

Section Parsing.

(** [JSON.parse] ([None] where it throws) and [String.prototype.trim]. *)
Variable JSON_parse : string → option json.
Variable trim : string → string.

Definition is_empty (s : string) : bool :=
  match s with EmptyString => true | _ => false end.

(** [None] stands for [undefined], as a default and as a result. *)
Definition safeJSONParse (value : string) (defaultValue : option json) : option json :=
  if is_empty value || is_empty (trim value) then
    if is_array defaultValue then default_region else defaultValue
  else
    match JSON_parse value with
    | Some parsed =>
        if is_array defaultValue && negb (is_array (Some parsed)) then defaultValue
        else match parsed with
             | JArr [] => defaultValue
             | _ => Some parsed
             end
    | None => if is_array defaultValue then default_region else defaultValue
    end.

(** The values of the setup form. *)
Record setup : Type := Setup {
  setupStreamGroupId : string;
  setupApplicationId : string;
  setupUserId : string;
  setupArgs : string;
  setupEnv : string;
  setupLocations : string
}.

(** [value || fallback]. *)
Definition or_else (value fallback : string) : string :=
  if is_empty value then fallback else value.

(** A property whose value is [undefined] is not sent. *)
Definition optional (k : string) (v : option json) : list (string * json) :=
  match v with
  | Some j => [(k, j)]
  | None => []
  end.

(** The object [appStartStreaming] hands to [doPost] for
    [/api/CreateStreamSession], [None] where building it throws. *)
Definition create_body (isLocal : bool) (f : setup) (signalRequest : string)
    : option (list (string * json)) :=
  match JSON_parse (or_else (setupArgs f) "[]") with
  | None => None
  | Some launchArgs =>
      match JSON_parse (or_else (setupEnv f) "{}") with
      | None => None
      | Some environment =>
          Some ([("StreamGroupId", if isLocal then JStr (setupStreamGroupId f) else JNull);
                 ("ApplicationIdentifier",
                  if is_empty (setupApplicationId f) then JNull
                  else JStr (setupApplicationId f));
                 ("UserId", JStr (setupUserId f));
                 ("AdditionalLaunchArgs", launchArgs);
                 ("AdditionalEnvironmentVariables", environment);
                 ("SignalRequest", JStr signalRequest)]
                ++ optional "locations" (safeJSONParse (setupLocations f) None))
      end
  end.

(** [JSON.parse(locations)[0]], the [location] query parameter of a
    started stream: [None] where the expression throws, [Some None]
    where it is [undefined]. *)
Definition location_param (locations : string) : option (option json) :=
  match JSON_parse locations with
  | None => None
  | Some JNull => None
  | Some (JArr items) => Some (head items)
  | Some (JObj members) => Some (get_member "0" members)
  | Some (JStr (String c _)) => Some (Some (JStr (String c EmptyString)))
  | Some _ => Some None
  end.

(** A world in which building the arguments of [setQueryParams] throws
    when [JSON.parse(locations)[0]] does. *)
Definition with_locations (locations : string) (w : world) : world :=
  {| throws := λ s,
       match s with
       | AtSetQueryParams =>
           throws w AtSetQueryParams ||
           match location_param locations with None => true | Some _ => false end
       | _ => throws w s
       end;
     orientation_ok := orientation_ok w;
     webkit := webkit w;
     answers := answers w;
     reconnect_answer := reconnect_answer w |}.

End Parsing.

(** *** [endStreamSession] *)

(** What [fetch] comes back with. *)
Inductive fetched : Type :=
  | NetworkError
  | Reply (r : response).

Inductive end_event : Type :=
  | StatsAreaShown
  | Fetched (token : option string)
  | StatsDisplayed
  | PeerClosed
  | ErrorLogged
  | StatsContentHidden
  | Alerted
  | TimeoutCleared
  | LoadingIndicatorHidden
  | AudioRemoved.

Record end_world : Type := EndWorld {
  fetch_result : fetched;
  displayWebRTCStats_throws : bool;
  peer_present : bool;
  close_throws : bool;
  audio_present : bool
}.

(** JavaScript truthiness of a JSON value that may be missing. *)
Definition json_truthy (v : option json) : bool :=
  match v with
  | None | Some JNull => false
  | Some (JBool b) => b
  | Some (JNum z) => negb (z =? 0)
  | Some (JStr s) => negb (is_empty s)
  | Some (JArr _) | Some (JObj _) => true
  end.

(** [response.ok]. *)
Definition response_ok (r : response) : bool :=
  (200 <=? status r) && (status r <=? 299).

Definition end_catch : list end_event := [ErrorLogged; StatsContentHidden; Alerted].

Definition endStreamSession_try (token : option string) (w : end_world)
    : list end_event * bool :=
  match fetch_result w with
  | NetworkError => ([], false)
  | Reply r =>
      if negb (response_ok r) then ([Fetched token], false)
      else if json_truthy (member "analysis" r) then
        if displayWebRTCStats_throws w then ([Fetched token], false)
        else if peer_present w then
          if close_throws w then ([Fetched token; StatsDisplayed], false)
          else ([Fetched token; StatsDisplayed; PeerClosed], true)
        else ([Fetched token; StatsDisplayed], true)
      else ([Fetched token], false)
  end.

(** The events of one call; the [bool] of the [try] part tells whether
    it ran to its end. *)
Definition endStreamSession (token : option string) (w : end_world) : list end_event :=
  let '(tr, completed) := endStreamSession_try token w in
  [StatsAreaShown] ++ tr ++ (if completed then [] else end_catch)
  ++ [TimeoutCleared; LoadingIndicatorHidden]
  ++ (if audio_present w then [AudioRemoved] else []).

(** *** Polling against the server *)

(** What [doPost] gives the polling loop for a reply of the server: the
    [SignalResponse] of a 200 reply, an exception for any other status. *)
Definition answered (r : response) (a : option string) : Prop :=
  match a with
  | Some s => status r = 200 ∧ member "SignalResponse" r = Some (JStr s)
  | None => status r ≠ 200
  end.

(** [n] rounds of the polling loop. *)
Fixpoint polls (n : nat) : list event :=
  match n with
  | O => []
  | S n' => Slept :: Posted "/api/GetSignalResponse" :: polls n'
  end.

(** The events of a connect up to the polling loop. *)
Definition before_polling (isLocal : bool) (w : world) : list event :=
  (if webkit w then [AudioStart] else []) ++
  [ShowPanel "appConnecting"; MetricsDisabled; LoadingStart; SignalRequestGenerated;
   SetupRead isLocal; Posted "/api/CreateStreamSession"].

(** One poll of the server, at a time and with the provider as it then
    answers. *)
Definition reply_at (rt : runtime) (cfg : config) (req : request) (st : state)
    (step : provider * Z) : response :=
  resp (GetSignalResponse rt cfg step.1 step.2 step.2 req st).

(** At this step the session is still activating and the record [cd] is
    not older than the timeout. *)
Definition activating (cfg : config) (cd : ConnectionData) (step : provider * Z) : Prop :=
  (∃ payload, getStreamSession step.1 (session_ref cd)
              = Ok (StreamSessionDataOf "ACTIVATING" payload)) ∧
  step.2 - cd_Timestamp cd ≤ STREAM_CONNECTION_TIMEOUT_SECONDS cfg * 1000.

End Page.

(** ** Properties of the server *)

Section LookupFacts.

Context (db : gmap string ConnectionData).

Lemma lookupToken_omitted : lookupToken db None = Falsy.
Proof. reflexivity. Qed.

Lemma lookupToken_empty : lookupToken db (Some EmptyString) = Falsy.
Proof. reflexivity. Qed.

Lemma lookupToken_own t cd :
  t ≠ EmptyString → db !! t = Some cd → lookupToken db (Some t) = Own cd.
Proof.
  intros Hne Hin. destruct t as [|a t']; [done|].
  cbn. by rewrite Hin.
Qed.

Lemma lookupToken_Own_inv tok cd :
  lookupToken db tok = Own cd →
  ∃ t, tok = Some t ∧ t ≠ EmptyString ∧ db !! t = Some cd.
Proof.
  destruct tok as [[|a t']|]; cbn; try discriminate.
  destruct (db !! String a t') as [cd'|] eqn:E.
  - intros [= <-]. eauto.
  - case_bool_decide; discriminate.
Qed.

Lemma lookupToken_unknown t :
  db !! t = None → t ∉ Object_prototype → lookupToken db (Some t) = Falsy.
Proof.
  intros Hout Hname. destruct t as [|a t']; [done|].
  cbn. rewrite Hout. by rewrite bool_decide_eq_false_2.
Qed.

Lemma lookupToken_inherited t :
  db !! t = None → t ∈ Object_prototype → lookupToken db (Some t) = Inherited t.
Proof.
  intros Hout Hname.
  destruct t as [|a t'].
  - exfalso. revert Hname.
    apply (bool_decide_eq_false_1 (EmptyString ∈ Object_prototype)).
    vm_compute. reflexivity.
  - cbn. rewrite Hout. by rewrite bool_decide_eq_true_2.
Qed.

End LookupFacts.

(** *** Poll Signal *)

Section PollFacts.

Context (rt : runtime) (cfg : config) (P : provider) (now now' : Z).
Context (req : request) (st : state).

Lemma poll_not_truthy :
  is_truthy (lookupToken (connectionDatabase st) (Token req)) = false →
  GetSignalResponse rt cfg P now now' req st = respond 404 notFound_data st.
Proof. intros H. unfold GetSignalResponse. by rewrite H. Qed.

Lemma poll_no_stream_group :
  truthy (get_StreamGroupId (lookupToken (connectionDatabase st) (Token req))) = false →
  GetSignalResponse rt cfg P now now' req st = respond 404 notFound_data st.
Proof. intros H. unfold GetSignalResponse. rewrite H. by rewrite orb_true_r. Qed.

Lemma poll_expired cd :
  lookupToken (connectionDatabase st) (Token req) = Own cd →
  truthy (cd_StreamGroupId cd) = true →
  now - cd_Timestamp cd > STREAM_CONNECTION_TIMEOUT_SECONDS cfg * 1000 →
  GetSignalResponse rt cfg P now now' req st =
    respond 404 [("error", JStr "Connection token expired");
                 ("correlationId", JStr (correlationId req))] st.
Proof.
  intros Hl Hsg Hage. unfold GetSignalResponse. rewrite Hl. cbn.
  rewrite Hsg. cbn. by rewrite bool_decide_eq_true_2.
Qed.

(** A live record is handed to the provider, and the state is left as
    it was. *)
Lemma poll_live cd :
  lookupToken (connectionDatabase st) (Token req) = Own cd →
  truthy (cd_StreamGroupId cd) = true →
  now - cd_Timestamp cd ≤ STREAM_CONNECTION_TIMEOUT_SECONDS cfg * 1000 →
  let o := GetSignalResponse rt cfg P now now' req st in
  calls o = [CallGet (session_ref cd)] ∧ after o = st ∧
  resp o =
    match getStreamSession P (session_ref cd) with
    | Err message =>
        Response generalErrorStatusCode
          (JObj [("error", JStr "An error occurred while processing your request");
                 ("correlationId", JStr (correlationId req));
                 ("message", JStr ("Failed to get stream session: " +:+ message))])
    | Ok data =>
        if String.eqb (session_Status data) "ACTIVATING" then
          Response 200 (JObj [("SignalResponse", JStr EmptyString)])
        else if String.eqb (session_Status data) "ACTIVE" then
          Response 200
            (JObj [("SignalResponse",
                    JStr (if bool_decide ("--override_protocol" ∈ argv rt)
                          then overrideProtocol rt now' (session_SignalResponse data)
                          else session_SignalResponse data))])
        else
          Response 404
            (JObj [("error", JStr "Unexpected stream status");
                   ("status", JStr (session_Status data));
                   ("correlationId", JStr (correlationId req))])
    end.
Proof.
  intros Hl Hsg Hage. unfold GetSignalResponse. rewrite Hl. cbn.
  rewrite Hsg. cbn. rewrite bool_decide_eq_false_2 by lia.
  cbn. repeat split; reflexivity.
Qed.

End PollFacts.

(** C1, as amended. For a Poll Signal request whose token maps to a live
    record that carries a stream group, and a provider that reports a
    session status: [ACTIVATING] gives 200 with an empty [SignalResponse];
    [ACTIVE] gives 200 with the provider's payload, unchanged when the
    server runs without [--override_protocol] and passed through the
    protocol override when it runs with it; any other status gives 404.
    The registry is not touched. *)
Theorem poll_state_mapping (rt : runtime) (cfg : config) (P : provider)
    (now now' : Z) (req : request) (st : state) (cd : ConnectionData)
    (data : StreamSessionData) :
  lookupToken (connectionDatabase st) (Token req) = Own cd →
  truthy (cd_StreamGroupId cd) = true →
  now - cd_Timestamp cd ≤ STREAM_CONNECTION_TIMEOUT_SECONDS cfg * 1000 →
  getStreamSession P (session_ref cd) = Ok data →
  let o := GetSignalResponse rt cfg P now now' req st in
  after o = st ∧
  (session_Status data = "ACTIVATING" →
     resp o = Response 200 (JObj [("SignalResponse", JStr EmptyString)])) ∧
  (session_Status data = "ACTIVE" →
     resp o = Response 200
       (JObj [("SignalResponse",
               JStr (if bool_decide ("--override_protocol" ∈ argv rt)
                     then overrideProtocol rt now' (session_SignalResponse data)
                     else session_SignalResponse data))]) ∧
     ("--override_protocol" ∉ argv rt →
        resp o = Response 200
          (JObj [("SignalResponse", JStr (session_SignalResponse data))]))) ∧
  (session_Status data ≠ "ACTIVATING" → session_Status data ≠ "ACTIVE" →
     status (resp o) = 404).
Proof.
  intros Hl Hsg Hage Hget o.
  destruct (poll_live rt cfg P now now' req st cd Hl Hsg Hage) as (_ & Hst & Hr).
  fold o in Hst, Hr. rewrite Hget in Hr.
  split; [exact Hst|]. split; [|split].
  - intros E. rewrite Hr, E. reflexivity.
  - intros E. split.
    + rewrite Hr, E. reflexivity.
    + intros Hflag. rewrite Hr, E. cbn.
      by rewrite bool_decide_eq_false_2.
  - intros N1 N2. rewrite Hr.
    apply String.eqb_neq in N1, N2. by rewrite N1, N2.
Qed.

Lemma poll_state_mapping_witness :
  let o := GetSignalResponse node_local shipped_config (healthy "ACTIVE" "ANSWER")
             2000 2001 (token_request (Some "T")) one_session in
  after o = one_session ∧
  ("ACTIVE" = "ACTIVATING" →
     resp o = Response 200 (JObj [("SignalResponse", JStr EmptyString)])) ∧
  ("ACTIVE" = "ACTIVE" →
     resp o = Response 200
       (JObj [("SignalResponse",
               JStr (if bool_decide ("--override_protocol" ∈ argv node_local)
                     then overrideProtocol node_local 2001 "ANSWER"
                     else "ANSWER"))]) ∧
     ("--override_protocol" ∉ argv node_local →
        resp o = Response 200 (JObj [("SignalResponse", JStr "ANSWER")]))) ∧
  ("ACTIVE" ≠ "ACTIVATING" → "ACTIVE" ≠ "ACTIVE" → status (resp o) = 404).
Proof.
  apply (poll_state_mapping node_local shipped_config (healthy "ACTIVE" "ANSWER")
           2000 2001 (token_request (Some "T")) one_session
           {| cd_StreamGroupId := Some "sg-1"; cd_StreamSessionArn := "arn:1";
              cd_Timestamp := 1000 |}
           (StreamSessionDataOf "ACTIVE" "ANSWER")).
  - reflexivity.
  - reflexivity.
  - vm_compute. discriminate.
  - reflexivity.
Defined.

(** C1, the claim as stated fails: started with [--override_protocol],
    the server answers a poll of a live token whose session is [ACTIVE]
    with a payload that differs from the provider's. *)
Lemma poll_active_payload_rewritten :
  let P := healthy "ACTIVE" "{}" in
  let cd := {| cd_StreamGroupId := Some "sg-1"; cd_StreamSessionArn := "arn:1";
               cd_Timestamp := 1000 |} in
  let o := GetSignalResponse node_override shipped_config P 2000 2001
             (token_request (Some "T")) one_session in
  lookupToken (connectionDatabase one_session) (Some "T") = Own cd ∧
  expired shipped_config 2000 (Some (cd_Timestamp cd)) = false ∧
  getStreamSession P (session_ref cd) = Ok (StreamSessionDataOf "ACTIVE" "{}") ∧
  resp o = Response 200
    (JObj [("SignalResponse",
            JStr ("{" +:+ JSONText.quote "webSdkProtocolUrl" +:+ ":" +:+
                  JSONText.quote "/override_protocol.js?2001" +:+ "}"))]) ∧
  resp o ≠ Response 200 (JObj [("SignalResponse", JStr "{}")]).
Proof.
  cbv zeta. split; [reflexivity|]. split; [reflexivity|]. split; [reflexivity|].
  split; [vm_compute; reflexivity|]. vm_compute. discriminate.
Qed.

(** *** Reconnect and Destroy *)

Section TokenFacts.

Context (P : provider) (req : request) (st : state).

Lemma reconnect_not_truthy :
  is_truthy (lookupToken (connectionDatabase st) (Token req)) = false →
  ReconnectStreamSession P req st = respond 404 [] st.
Proof. intros H. unfold ReconnectStreamSession. by rewrite H. Qed.

Lemma destroy_not_truthy :
  is_truthy (lookupToken (connectionDatabase st) (Token req)) = false →
  DestroyStreamSession P req st = respond 404 [] st.
Proof. intros H. unfold DestroyStreamSession. by rewrite H. Qed.

(** Reconnect on a stored record: one create-connection call against
    the stored stream group and session handle with the offer of the
    request; the answer is the provider's, and the state is untouched. *)
Lemma reconnect_present cd :
  lookupToken (connectionDatabase st) (Token req) = Own cd →
  let o := ReconnectStreamSession P req st in
  calls o = [CallConnect (connection_input cd (SignalRequest req))] ∧
  after o = st ∧
  resp o =
    match createStreamSessionConnection P (connection_input cd (SignalRequest req)) with
    | Err _ => Response generalErrorStatusCode (JObj [])
    | Ok answer => Response 200 (JObj [("SignalResponse", JStr answer)])
    end.
Proof.
  intros Hl. unfold ReconnectStreamSession. rewrite Hl. cbn.
  repeat split; reflexivity.
Qed.

(** Destroy on a stored record: one terminate call; on success the
    record is deleted and the answer is 200, on failure the state is
    left as it was and the answer is 502. *)
Lemma destroy_present t cd :
  Token req = Some t →
  lookupToken (connectionDatabase st) (Token req) = Own cd →
  let o := DestroyStreamSession P req st in
  calls o = [CallTerminate (session_ref cd)] ∧
  match terminateStreamSession P (session_ref cd) with
  | Err _ => resp o = Response generalErrorStatusCode (JObj []) ∧ after o = st
  | Ok _ =>
      resp o = Response 200 (JObj []) ∧
      after o = {| connectionDatabase := delete t (connectionDatabase st);
                   timers := timers st |}
  end.
Proof.
  intros Ht Hl. unfold DestroyStreamSession. rewrite Hl. cbn.
  fold (session_ref cd).
  destruct (terminateStreamSession P (session_ref cd)); cbn.
  - repeat split; reflexivity.
  - rewrite Ht. repeat split; reflexivity.
Qed.

End TokenFacts.

(** Two Destroy calls in a row on a stored token that is not the name of
    a member of [Object.prototype], the provider accepting the first:
    200, then 404 without a provider call. *)
Lemma destroy_twice (P1 P2 : provider) (req : request) (st : state)
    (t : string) (cd : ConnectionData) (u : unit) :
  Token req = Some t →
  lookupToken (connectionDatabase st) (Token req) = Own cd →
  t ∉ Object_prototype →
  terminateStreamSession P1 (session_ref cd) = Ok u →
  let o1 := DestroyStreamSession P1 req st in
  let o2 := DestroyStreamSession P2 req (after o1) in
  status (resp o1) = 200 ∧ status (resp o2) = 404 ∧ calls o2 = [] ∧
  after o2 = after o1 ∧ connectionDatabase (after o1) !! t = None.
Proof.
  intros Ht Hl Hname Hok o1 o2.
  destruct (destroy_present P1 req st t cd Ht Hl) as [_ H1].
  rewrite Hok in H1. destruct H1 as [Hr1 Hs1]. fold o1 in Hr1, Hs1.
  assert (Hgone : connectionDatabase (after o1) !! t = None).
  { rewrite Hs1. cbn. apply lookup_delete_eq. }
  assert (Ho2 : o2 = respond 404 [] (after o1)).
  { unfold o2. apply destroy_not_truthy. rewrite Ht.
    by rewrite (lookupToken_unknown _ t Hgone Hname). }
  rewrite Hr1, Ho2. cbn. done.
Qed.

(** C9. A Poll Signal, Reconnect or Destroy request whose body has no
    [Token] or an empty one is answered 404, with no provider call and
    the registry as it was. *)
Theorem falsy_token_not_found (rt : runtime) (cfg : config) (P : provider)
    (now now' : Z) (req : request) (st : state) :
  Token req = None ∨ Token req = Some EmptyString →
  let poll := GetSignalResponse rt cfg P now now' req st in
  let reconnect := ReconnectStreamSession P req st in
  let destroy := DestroyStreamSession P req st in
  (status (resp poll) = 404 ∧ calls poll = [] ∧ after poll = st) ∧
  (status (resp reconnect) = 404 ∧ calls reconnect = [] ∧ after reconnect = st) ∧
  (status (resp destroy) = 404 ∧ calls destroy = [] ∧ after destroy = st).
Proof.
  intros Htok poll reconnect destroy.
  assert (Hf : is_truthy (lookupToken (connectionDatabase st) (Token req)) = false).
  { by destruct Htok as [-> | ->]. }
  unfold poll, reconnect, destroy.
  rewrite (poll_not_truthy _ _ _ _ _ _ _ Hf).
  rewrite (reconnect_not_truthy _ _ _ Hf), (destroy_not_truthy _ _ _ Hf).
  cbn. done.
Qed.

Lemma falsy_token_not_found_witness :
  let poll := GetSignalResponse node_local shipped_config (healthy "ACTIVE" "ANSWER")
                2000 2001 (token_request (Some EmptyString)) one_session in
  let reconnect := ReconnectStreamSession (healthy "ACTIVE" "ANSWER")
                     (token_request (Some EmptyString)) one_session in
  let destroy := DestroyStreamSession (healthy "ACTIVE" "ANSWER")
                   (token_request (Some EmptyString)) one_session in
  (status (resp poll) = 404 ∧ calls poll = [] ∧ after poll = one_session) ∧
  (status (resp reconnect) = 404 ∧ calls reconnect = [] ∧ after reconnect = one_session) ∧
  (status (resp destroy) = 404 ∧ calls destroy = [] ∧ after destroy = one_session).
Proof.
  apply (falsy_token_not_found node_local shipped_config (healthy "ACTIVE" "ANSWER")
           2000 2001 (token_request (Some EmptyString)) one_session).
  right. reflexivity.
Defined.

(** C2, as amended. On every registry, a token that is neither a key of
    it nor the name of a member of [Object.prototype] is answered 404 by
    Poll Signal, Reconnect and Destroy, with no provider call and no
    change of state. A token whose record (carrying a stream group) is
    older than the timeout is answered 404 by Poll Signal without a
    provider call, under an error text that differs from the one an
    unknown token gets; Reconnect and Destroy do not look at the age:
    they call the provider as for any stored record and answer as the
    provider decides. *)
Theorem unknown_and_expired_tokens (rt : runtime) (cfg : config) (P : provider)
    (now now' : Z) (st : state) :
  (∀ (unknown : request) (t : string),
     Token unknown = Some t →
     connectionDatabase st !! t = None →
     t ∉ Object_prototype →
     GetSignalResponse rt cfg P now now' unknown st = respond 404 notFound_data st ∧
     ReconnectStreamSession P unknown st = respond 404 [] st ∧
     DestroyStreamSession P unknown st = respond 404 [] st) ∧
  (∀ (old : request) (cd : ConnectionData),
     lookupToken (connectionDatabase st) (Token old) = Own cd →
     truthy (cd_StreamGroupId cd) = true →
     now - cd_Timestamp cd > STREAM_CONNECTION_TIMEOUT_SECONDS cfg * 1000 →
     (GetSignalResponse rt cfg P now now' old st =
        respond 404 [("error", JStr "Connection token expired");
                     ("correlationId", JStr (correlationId old))] st ∧
      resp (GetSignalResponse rt cfg P now now' old st) ≠ Response 404 (JObj notFound_data)) ∧
     (calls (ReconnectStreamSession P old st) =
        [CallConnect (connection_input cd (SignalRequest old))] ∧
      resp (ReconnectStreamSession P old st) =
        match createStreamSessionConnection P (connection_input cd (SignalRequest old)) with
        | Err _ => Response generalErrorStatusCode (JObj [])
        | Ok answer => Response 200 (JObj [("SignalResponse", JStr answer)])
        end) ∧
     (calls (DestroyStreamSession P old st) = [CallTerminate (session_ref cd)] ∧
      status (resp (DestroyStreamSession P old st)) =
        match terminateStreamSession P (session_ref cd) with
        | Err _ => generalErrorStatusCode
        | Ok _ => 200
        end)).
Proof.
  split.
  - intros unknown t Ht Hout Hname.
    assert (Hf : is_truthy (lookupToken (connectionDatabase st) (Token unknown)) = false).
    { rewrite Ht. by rewrite (lookupToken_unknown _ t Hout Hname). }
    split; [by apply poll_not_truthy|].
    split; [by apply reconnect_not_truthy | by apply destroy_not_truthy].
  - intros old cd Hl Hsg Hage.
    pose proof (poll_expired rt cfg P now now' old st cd Hl Hsg Hage) as Ho.
    split; [|split].
    + split; [exact Ho|]. rewrite Ho. cbn. discriminate.
    + destruct (reconnect_present P old st cd Hl) as (Hc & _ & Hr). by split.
    + destruct (lookupToken_Own_inv _ _ _ Hl) as (t' & Ht' & _ & _).
      destruct (destroy_present P old st t' cd Ht' Hl) as [Hc Hr].
      split; [exact Hc|].
      destruct (terminateStreamSession P (session_ref cd)); by destruct Hr as [-> _].
Qed.

Lemma unknown_and_expired_tokens_witness :
  let P := healthy "ACTIVE" "ANSWER" in
  let cd := {| cd_StreamGroupId := Some "sg-1"; cd_StreamSessionArn := "arn:1";
               cd_Timestamp := 1000 |} in
  let unknown := token_request (Some "U") in
  let old := token_request (Some "T") in
  let poll := GetSignalResponse node_local shipped_config P 700000 700001 in
  (poll unknown no_sessions = respond 404 notFound_data no_sessions ∧
   ReconnectStreamSession P unknown no_sessions = respond 404 [] no_sessions ∧
   DestroyStreamSession P unknown no_sessions = respond 404 [] no_sessions) ∧
  (poll unknown one_session = respond 404 notFound_data one_session ∧
   ReconnectStreamSession P unknown one_session = respond 404 [] one_session ∧
   DestroyStreamSession P unknown one_session = respond 404 [] one_session) ∧
  (poll old one_session =
     respond 404 [("error", JStr "Connection token expired");
                  ("correlationId", JStr (correlationId old))] one_session ∧
   resp (poll old one_session) ≠ Response 404 (JObj notFound_data)) ∧
  (calls (ReconnectStreamSession P old one_session) =
     [CallConnect (connection_input cd (SignalRequest old))] ∧
   resp (ReconnectStreamSession P old one_session) =
     match createStreamSessionConnection P (connection_input cd (SignalRequest old)) with
     | Err _ => Response generalErrorStatusCode (JObj [])
     | Ok answer => Response 200 (JObj [("SignalResponse", JStr answer)])
     end) ∧
  (calls (DestroyStreamSession P old one_session) = [CallTerminate (session_ref cd)] ∧
   status (resp (DestroyStreamSession P old one_session)) =
     match terminateStreamSession P (session_ref cd) with
     | Err _ => generalErrorStatusCode
     | Ok _ => 200
     end).
Proof.
  assert (Hname : "U" ∉ Object_prototype).
  { apply (bool_decide_eq_false_1 ("U" ∈ Object_prototype)). vm_compute. reflexivity. }
  split; [|split].
  - apply (proj1 (unknown_and_expired_tokens node_local shipped_config
                    (healthy "ACTIVE" "ANSWER") 700000 700001 no_sessions)
             (token_request (Some "U")) "U").
    + reflexivity.
    + reflexivity.
    + exact Hname.
  - apply (proj1 (unknown_and_expired_tokens node_local shipped_config
                    (healthy "ACTIVE" "ANSWER") 700000 700001 one_session)
             (token_request (Some "U")) "U").
    + reflexivity.
    + reflexivity.
    + exact Hname.
  - apply (proj2 (unknown_and_expired_tokens node_local shipped_config
                    (healthy "ACTIVE" "ANSWER") 700000 700001 one_session)
             (token_request (Some "T"))
             {| cd_StreamGroupId := Some "sg-1"; cd_StreamSessionArn := "arn:1";
                cd_Timestamp := 1000 |}).
    + reflexivity.
    + reflexivity.
    + vm_compute. reflexivity.
Defined.

(** C2, the claim as stated fails: a token whose record is older than
    the timeout and not yet swept is answered by Reconnect with the
    provider's new answer, and by Destroy with success, where a token
    that was never issued gets 404 from both. *)
Lemma expired_token_reconnects :
  let P := healthy "ACTIVE" "ANSWER" in
  let cd := {| cd_StreamGroupId := Some "sg-1"; cd_StreamSessionArn := "arn:1";
               cd_Timestamp := 1000 |} in
  lookupToken (connectionDatabase one_session) (Some "T") = Own cd ∧
  expired shipped_config 700000 (Some (cd_Timestamp cd)) = true ∧
  resp (ReconnectStreamSession P (reconnect_request "T" "OFFER2") one_session) =
    Response 200 (JObj [("SignalResponse", JStr "ANSWER2")]) ∧
  resp (DestroyStreamSession P (token_request (Some "T")) one_session) =
    Response 200 (JObj []) ∧
  status (resp (ReconnectStreamSession P (reconnect_request "U" "OFFER2") one_session)) = 404 ∧
  status (resp (DestroyStreamSession P (token_request (Some "U")) one_session)) = 404.
Proof.
  cbv zeta. repeat split; vm_compute; reflexivity.
Qed.

(** A token that names a member of [Object.prototype] and is no key of
    the registry passes the guard of Reconnect and Destroy. *)
Lemma inherited_name_is_truthy (db : gmap string ConnectionData) (t : string) :
  db !! t = None → t ∈ Object_prototype →
  is_truthy (lookupToken db (Some t)) = true ∧
  get_StreamGroupId (lookupToken db (Some t)) = None ∧
  get_StreamSessionArn (lookupToken db (Some t)) = None.
Proof.
  intros Hout Hname. by rewrite (lookupToken_inherited db t Hout Hname).
Qed.

(** C3, at the failing input. The registry is empty and the body is
    [{ Token: "constructor" }]: the lookup yields [Object.prototype.constructor],
    the guard lets it through, terminate is called with neither a stream
    group nor a session handle, and the answer is 200 or 502 as the
    provider decides, never 404. *)
Theorem destroy_inherited_name_reaches_provider (P : provider) :
  let o := DestroyStreamSession P (token_request (Some "constructor")) no_sessions in
  connectionDatabase no_sessions !! "constructor" = None ∧
  calls o = [CallTerminate {| ref_Identifier := None;
                              ref_StreamSessionIdentifier := None |}] ∧
  (status (resp o) = 200 ∨ status (resp o) = 502) ∧
  status (resp o) ≠ 404.
Proof.
  assert (Hl : lookupToken (connectionDatabase no_sessions)
                 (Token (token_request (Some "constructor")))
               = Inherited "constructor") by (vm_compute; reflexivity).
  cbv zeta. split; [reflexivity|].
  unfold DestroyStreamSession. rewrite Hl. cbn.
  destruct (terminateStreamSession P _); cbn.
  - split; [reflexivity|]. split; [by right | done].
  - split; [reflexivity|]. split; [by left | done].
Qed.

(** C5, at the failing input. The registry is empty and the body is
    [{ Token: "constructor", SignalRequest: "OFFER" }]: the guard lets the
    inherited property through, create-connection is called with neither
    a stream group nor a session handle, and the answer is 200 or 502 as
    the provider decides, never 404. *)
Theorem reconnect_inherited_name_reaches_provider (P : provider) :
  let o := ReconnectStreamSession P (reconnect_request "constructor" "OFFER") no_sessions in
  connectionDatabase no_sessions !! "constructor" = None ∧
  calls o = [CallConnect {| conn_Identifier := None;
                            conn_StreamSessionIdentifier := None;
                            conn_SignalRequest := Some "OFFER" |}] ∧
  (status (resp o) = 200 ∨ status (resp o) = 502) ∧
  status (resp o) ≠ 404.
Proof.
  assert (Hl : lookupToken (connectionDatabase no_sessions)
                 (Token (reconnect_request "constructor" "OFFER"))
               = Inherited "constructor") by (vm_compute; reflexivity).
  cbv zeta. split; [reflexivity|].
  unfold ReconnectStreamSession. rewrite Hl. cbn.
  destruct (createStreamSessionConnection P _); cbn.
  - split; [reflexivity|]. split; [by right | done].
  - split; [reflexivity|]. split; [by left | done].
Qed.

(** *** Create *)

Section CreateFacts.

Context (rt : runtime) (cfg : config) (P : provider).
Context (uuid : string) (now : Z) (req : request) (st : state).

Lemma create_unconfigured :
  provider_reached rt = false →
  CreateStreamSession rt cfg P uuid now req st =
    respond 500 [("error", JStr "Server Configuration Error");
                 ("message", JStr "STREAM_GROUP_ID not configured")] st.
Proof.
  unfold provider_reached, CreateStreamSession.
  destruct (IS_LOCAL rt), (truthy (env_STREAM_GROUP_ID rt)); cbn; congruence.
Qed.

Lemma create_reached :
  provider_reached rt = true →
  let o := CreateStreamSession rt cfg P uuid now req st in
  calls o = [CallStart (startRequestData rt cfg req)] ∧
  (resp o, after o) =
    CreateStreamSession_callback rt cfg uuid now req
      (startStreamSession P (startRequestData rt cfg req)) st.
Proof.
  unfold provider_reached, CreateStreamSession.
  destruct (IS_LOCAL rt), (truthy (env_STREAM_GROUP_ID rt)); cbn; try congruence;
    intros _; destruct (CreateStreamSession_callback _ _ _ _ _ _ _); done.
Qed.

(** A successful create stores the record under the minted token and
    arms its removal. *)
Lemma create_ok arn :
  provider_reached rt = true →
  startStreamSession P (startRequestData rt cfg req) = Ok arn →
  let o := CreateStreamSession rt cfg P uuid now req st in
  resp o = Response 200 (JObj [("Token", JStr uuid)]) ∧
  connectionDatabase (after o) !! uuid =
    Some {| cd_StreamGroupId := resolveStreamGroupId rt req;
            cd_StreamSessionArn := arn;
            cd_Timestamp := now |} ∧
  timers (after o) = (now + 24 * 60 * 60 * 1000, uuid) :: timers st.
Proof.
  intros Hr Hok. destruct (create_reached Hr) as [_ Hcb]. cbv zeta in *.
  rewrite Hok in Hcb. cbn in Hcb. injection Hcb as -> ->. cbn.
  by rewrite lookup_insert_eq.
Qed.

End CreateFacts.

(** C4. When the provider's start call fails, Create answers with an
    error (the configured error status and the provider's message, or 500
    when the server never got as far as the provider), the body carries
    no [Token], and the registry and the pending removals are exactly as
    before. *)
Theorem failed_create_no_mutation (rt : runtime) (cfg : config) (P : provider)
    (uuid : string) (now : Z) (req : request) (st : state) (message : string) :
  startStreamSession P (startRequestData rt cfg req) = Err message →
  let o := CreateStreamSession rt cfg P uuid now req st in
  after o = st ∧
  member "Token" (resp o) = None ∧
  (resp o = Response (GENERAL_ERROR_STATUS_CODE cfg) (JObj [("error", JStr message)]) ∨
   (status (resp o) = 500 ∧ calls o = [])).
Proof.
  intros Herr o. unfold o.
  destruct (provider_reached rt) eqn:Hr.
  - destruct (create_reached rt cfg P uuid now req st Hr) as [_ Hcb].
    cbv zeta in Hcb. rewrite Herr in Hcb. cbn in Hcb.
    injection Hcb as -> ->. split; [done|]. split; [done|]. by left.
  - rewrite (create_unconfigured rt cfg P uuid now req st Hr). cbn.
    split; [done|]. split; [done|]. by right.
Qed.

Lemma failed_create_no_mutation_witness :
  let o := CreateStreamSession node_local shipped_config failing "uuid-1" 5
             create_request one_session in
  after o = one_session ∧
  member "Token" (resp o) = None ∧
  (resp o = Response (GENERAL_ERROR_STATUS_CODE shipped_config)
                     (JObj [("error", JStr "boom")]) ∨
   (status (resp o) = 500 ∧ calls o = [])).
Proof.
  apply (failed_create_no_mutation node_local shipped_config failing "uuid-1" 5
           create_request one_session "boom").
  reflexivity.
Defined.

(** C7, as amended. Create validates no field of the request; the
    [validateStreamSession] chain of the server file is installed on no
    route. The one rejection before the provider is that of hosted mode
    without a configured [STREAM_GROUP_ID], answered 500 with no provider
    call and no change of state. Every other request is passed to the
    provider's start call with its user identifier, application
    identifier, offer and launch settings as they came, present or not. *)
Theorem create_forwards_unvalidated (rt : runtime) (cfg : config) (P : provider)
    (uuid : string) (now : Z) (req : request) (st : state) :
  let o := CreateStreamSession rt cfg P uuid now req st in
  if provider_reached rt then
    ∃ rq, calls o = [CallStart rq] ∧
      start_UserId rq = UserId req ∧
      start_ApplicationIdentifier rq = ApplicationIdentifier req ∧
      start_SignalRequest rq = SignalRequest req ∧
      start_AdditionalLaunchArgs rq = AdditionalLaunchArgs req ∧
      start_AdditionalEnvironmentVariables rq = AdditionalEnvironmentVariables req ∧
      start_Locations rq = Locations req ∧
      start_Identifier rq =
        (if IS_LOCAL rt then StreamGroupId req else env_STREAM_GROUP_ID rt)
  else
    status (resp o) = 500 ∧ calls o = [] ∧ after o = st.
Proof.
  intros o. unfold o. destruct (provider_reached rt) eqn:Hr.
  - destruct (create_reached rt cfg P uuid now req st Hr) as [Hc _].
    exists (startRequestData rt cfg req). by rewrite Hc.
  - by rewrite (create_unconfigured rt cfg P uuid now req st Hr).
Qed.

(** C7, the claim as stated fails: in local mode a Create request whose
    body is [{}], with no user identifier, no application identifier and
    no stream group, goes to the provider, and when the provider accepts
    it a token is minted and stored. *)
Lemma create_missing_fields_reaches_provider :
  let req := token_request None in
  let o := CreateStreamSession node_local shipped_config (healthy "ACTIVE" "ANSWER")
             "uuid-1" 5 req no_sessions in
  UserId req = None ∧ ApplicationIdentifier req = None ∧ StreamGroupId req = None ∧
  calls o = [CallStart (startRequestData node_local shipped_config req)] ∧
  resp o = Response 200 (JObj [("Token", JStr "uuid-1")]) ∧
  connectionDatabase (after o) !! "uuid-1" =
    Some {| cd_StreamGroupId := None; cd_StreamSessionArn := "arn:1"; cd_Timestamp := 5 |}.
Proof.
  cbv zeta. repeat split; vm_compute; reflexivity.
Qed.

(** *** Expiry *)

Section SweepFacts.

Context (cfg : config) (now : Z) (st : state).

(** The sweep keeps exactly the records that are not older than the
    timeout. *)
Lemma cleanup_lookup t :
  connectionDatabase (cleanup cfg now st) !! t =
    match connectionDatabase st !! t with
    | Some cd =>
        if bool_decide (now - cd_Timestamp cd > STREAM_CONNECTION_TIMEOUT_SECONDS cfg * 1000)
        then None else Some cd
    | None => None
    end.
Proof.
  cbn. rewrite map_lookup_filter.
  destruct (connectionDatabase st !! t) as [cd|]; [|done]. cbn.
  case_bool_decide; case_guard; cbn in *; done.
Qed.

Lemma cleanup_keeps_live t cd :
  connectionDatabase st !! t = Some cd →
  now - cd_Timestamp cd ≤ STREAM_CONNECTION_TIMEOUT_SECONDS cfg * 1000 →
  connectionDatabase (cleanup cfg now st) !! t = Some cd.
Proof.
  intros Hin Hage. rewrite cleanup_lookup, Hin.
  by rewrite bool_decide_eq_false_2 by lia.
Qed.

Lemma cleanup_drops_old t cd :
  connectionDatabase st !! t = Some cd →
  now - cd_Timestamp cd > STREAM_CONNECTION_TIMEOUT_SECONDS cfg * 1000 →
  connectionDatabase (cleanup cfg now st) !! t = None.
Proof.
  intros Hin Hage. rewrite cleanup_lookup, Hin.
  by rewrite bool_decide_eq_true_2.
Qed.

(** After a sweep a token maps to the record it mapped to before, or to
    nothing that carries a stream group. *)
Lemma lookupToken_cleanup tok cd :
  lookupToken (connectionDatabase st) tok = Own cd →
  lookupToken (connectionDatabase (cleanup cfg now st)) tok = Own cd ∨
  get_StreamGroupId (lookupToken (connectionDatabase (cleanup cfg now st)) tok) = None.
Proof.
  intros Hl. destruct (lookupToken_Own_inv _ _ _ Hl) as (t & -> & Hne & Hin).
  pose proof (cleanup_lookup t) as Hc. rewrite Hin in Hc.
  case_bool_decide.
  - right. destruct t as [|a t']; [done|]. unfold lookupToken. rewrite Hc.
    by case_bool_decide.
  - left. by apply lookupToken_own.
Qed.

End SweepFacts.

(** C6, as amended. A record stored at time [T] that carries a stream
    group is retrieved by Poll Signal, which hands it to the provider,
    at every time before [T] plus the timeout, also when a sweep has run
    in the meantime; a record without a stream group is answered 404
    without a provider call at those times too. At every time after [T]
    plus the timeout Poll Signal answers 404 without a provider call for
    every record, on the registry as it is and on the registry after a
    sweep run at any time. *)
Theorem ttl_expiry (rt : runtime) (cfg : config) (P : provider) (now now' : Z)
    (req : request) (st : state) (cd : ConnectionData) :
  lookupToken (connectionDatabase st) (Token req) = Own cd →
  let deadline := cd_Timestamp cd + STREAM_CONNECTION_TIMEOUT_SECONDS cfg * 1000 in
  (now < deadline →
     if truthy (cd_StreamGroupId cd) then
       calls (GetSignalResponse rt cfg P now now' req st) = [CallGet (session_ref cd)] ∧
       ∀ swept_at : Z, swept_at ≤ now →
         calls (GetSignalResponse rt cfg P now now' req (cleanup cfg swept_at st))
           = [CallGet (session_ref cd)]
     else
       GetSignalResponse rt cfg P now now' req st = respond 404 notFound_data st) ∧
  (now > deadline →
     ∀ swept_at : Z,
       let unswept := GetSignalResponse rt cfg P now now' req st in
       let swept := GetSignalResponse rt cfg P now now' req (cleanup cfg swept_at st) in
       status (resp unswept) = 404 ∧ calls unswept = [] ∧
       status (resp swept) = 404 ∧ calls swept = []).
Proof.
  intros Hl deadline. unfold deadline.
  destruct (truthy (cd_StreamGroupId cd)) eqn:Hsg.
  - split.
    + intros Hbefore. split.
      * by destruct (poll_live rt cfg P now now' req st cd Hl Hsg ltac:(lia)) as [? _].
      * intros swept_at Hswept.
        destruct (lookupToken_Own_inv _ _ _ Hl) as (t & Ht & Hne & Hin).
        assert (Hkept : lookupToken (connectionDatabase (cleanup cfg swept_at st))
                          (Token req) = Own cd).
        { rewrite Ht. apply lookupToken_own; [done|].
          apply cleanup_keeps_live; [done | lia]. }
        by destruct (poll_live rt cfg P now now' req _ cd Hkept Hsg ltac:(lia)) as [? _].
    + intros Hafter swept_at. cbv zeta.
      assert (Hage : now - cd_Timestamp cd > STREAM_CONNECTION_TIMEOUT_SECONDS cfg * 1000)
        by lia.
      rewrite (poll_expired rt cfg P now now' req st cd Hl Hsg Hage). cbn.
      split; [done|]. split; [done|].
      destruct (lookupToken_cleanup cfg swept_at st _ _ Hl) as [Hown | Hnone].
      * by rewrite (poll_expired rt cfg P now now' req _ cd Hown Hsg Hage).
      * rewrite poll_no_stream_group; [done|]. by rewrite Hnone.
  - assert (Hnf : ∀ st',
              lookupToken (connectionDatabase st') (Token req) = Own cd ∨
              get_StreamGroupId (lookupToken (connectionDatabase st') (Token req)) = None →
              GetSignalResponse rt cfg P now now' req st' = respond 404 notFound_data st').
    { intros st' [Hown | Hnone]; apply poll_no_stream_group.
      - by rewrite Hown; cbn; rewrite Hsg.
      - by rewrite Hnone. }
    split.
    + intros _. apply Hnf. by left.
    + intros _ swept_at. cbv zeta.
      rewrite (Hnf st) by (by left).
      by rewrite (Hnf _ (lookupToken_cleanup cfg swept_at st _ _ Hl)).
Qed.

Lemma ttl_expiry_witness :
  let cd := {| cd_StreamGroupId := Some "sg-1"; cd_StreamSessionArn := "arn:1";
               cd_Timestamp := 1000 |} in
  let P := healthy "ACTIVE" "ANSWER" in
  let req := token_request (Some "T") in
  let poll := GetSignalResponse node_local shipped_config P 600999 601000 req in
  let deadline := cd_Timestamp cd + STREAM_CONNECTION_TIMEOUT_SECONDS shipped_config * 1000 in
  (600999 < deadline →
     if truthy (cd_StreamGroupId cd) then
       calls (poll one_session) = [CallGet (session_ref cd)] ∧
       ∀ swept_at : Z, swept_at ≤ 600999 →
         calls (poll (cleanup shipped_config swept_at one_session))
           = [CallGet (session_ref cd)]
     else
       poll one_session = respond 404 notFound_data one_session) ∧
  (600999 > deadline →
     ∀ swept_at : Z,
       let unswept := poll one_session in
       let swept := poll (cleanup shipped_config swept_at one_session) in
       status (resp unswept) = 404 ∧ calls unswept = [] ∧
       status (resp swept) = 404 ∧ calls swept = []).
Proof.
  apply (ttl_expiry node_local shipped_config (healthy "ACTIVE" "ANSWER") 600999 601000
           (token_request (Some "T")) one_session
           {| cd_StreamGroupId := Some "sg-1"; cd_StreamSessionArn := "arn:1";
              cd_Timestamp := 1000 |}).
  reflexivity.
Defined.

(** C6, the claim as stated fails: in local mode a Create whose body
    names no stream group, accepted by the provider at time 5, stores a
    record; a Poll Signal with the minted token 95 ms later, long before
    the timeout of 600 s, does not retrieve it: it answers 404 and makes
    no provider call. *)
Lemma record_without_stream_group_not_retrieved :
  let P := healthy "ACTIVE" "ANSWER" in
  let created := CreateStreamSession node_local shipped_config P "uuid-1" 5
                   (token_request None) no_sessions in
  let poll := GetSignalResponse node_local shipped_config P 100 100
                (token_request (Some "uuid-1")) (after created) in
  resp created = Response 200 (JObj [("Token", JStr "uuid-1")]) ∧
  connectionDatabase (after created) !! "uuid-1" =
    Some {| cd_StreamGroupId := None; cd_StreamSessionArn := "arn:1"; cd_Timestamp := 5 |} ∧
  100 < 5 + STREAM_CONNECTION_TIMEOUT_SECONDS shipped_config * 1000 ∧
  resp poll = Response 404 (JObj notFound_data) ∧
  calls poll = [].
Proof.
  cbv zeta. repeat split; vm_compute; reflexivity.
Qed.

(** A record that is not older than the timeout is never answered with
    the error of an expired token. *)
Lemma poll_live_not_expired_answer (rt : runtime) (cfg : config) (P : provider)
    (now now' : Z) (req : request) (st : state) (cd : ConnectionData) :
  lookupToken (connectionDatabase st) (Token req) = Own cd →
  now - cd_Timestamp cd ≤ STREAM_CONNECTION_TIMEOUT_SECONDS cfg * 1000 →
  member "error" (resp (GetSignalResponse rt cfg P now now' req st))
    ≠ Some (JStr "Connection token expired").
Proof.
  intros Hl Hage.
  destruct (truthy (cd_StreamGroupId cd)) eqn:Hsg.
  - destruct (poll_live rt cfg P now now' req st cd Hl Hsg Hage) as (_ & _ & ->).
    destruct (getStreamSession P (session_ref cd)) as [m|data]; [done|].
    destruct (String.eqb (session_Status data) "ACTIVATING"); [done|].
    destruct (String.eqb (session_Status data) "ACTIVE"); done.
  - rewrite poll_no_stream_group; [done|]. by rewrite Hl.
Qed.

(** C10. A record whose age is exactly the timeout is live: the expiry
    check of Poll Signal does not reject it (the answer is not the
    "Connection token expired" one, and a record that carries a stream
    group goes on to the provider) and the sweep keeps it. One
    millisecond later the check rejects it and the sweep deletes it: both
    comparisons are strict. *)
Theorem expiry_boundary_is_live (rt : runtime) (cfg : config) (P : provider)
    (now now' : Z) (req : request) (st : state) (t : string) (cd : ConnectionData) :
  Token req = Some t →
  lookupToken (connectionDatabase st) (Token req) = Own cd →
  now - cd_Timestamp cd = STREAM_CONNECTION_TIMEOUT_SECONDS cfg * 1000 →
  (expired cfg now (Some (cd_Timestamp cd)) = false ∧
   member "error" (resp (GetSignalResponse rt cfg P now now' req st))
     ≠ Some (JStr "Connection token expired") ∧
   (truthy (cd_StreamGroupId cd) = true →
      calls (GetSignalResponse rt cfg P now now' req st) = [CallGet (session_ref cd)]) ∧
   connectionDatabase (cleanup cfg now st) !! t = Some cd) ∧
  (expired cfg (now + 1) (Some (cd_Timestamp cd)) = true ∧
   status (resp (GetSignalResponse rt cfg P (now + 1) now' req st)) = 404 ∧
   calls (GetSignalResponse rt cfg P (now + 1) now' req st) = [] ∧
   connectionDatabase (cleanup cfg (now + 1) st) !! t = None).
Proof.
  intros Ht Hl Hage.
  destruct (lookupToken_Own_inv _ _ _ Hl) as (t' & Ht' & _ & Hin).
  assert (t' = t) as -> by congruence.
  split; [split; [|split; [|split]] | split; [|split; [|split]]].
  - cbn. by rewrite bool_decide_eq_false_2 by lia.
  - apply (poll_live_not_expired_answer rt cfg P now now' req st cd Hl). lia.
  - intros Hsg.
    by destruct (poll_live rt cfg P now now' req st cd Hl Hsg ltac:(lia)) as [? _].
  - apply cleanup_keeps_live; [done | lia].
  - cbn. by rewrite bool_decide_eq_true_2 by lia.
  - destruct (truthy (cd_StreamGroupId cd)) eqn:Hsg.
    + by rewrite (poll_expired rt cfg P (now + 1) now' req st cd Hl Hsg ltac:(lia)).
    + rewrite poll_no_stream_group; [done|]. by rewrite Hl.
  - destruct (truthy (cd_StreamGroupId cd)) eqn:Hsg.
    + by rewrite (poll_expired rt cfg P (now + 1) now' req st cd Hl Hsg ltac:(lia)).
    + rewrite poll_no_stream_group; [done|]. by rewrite Hl.
  - by apply (cleanup_drops_old cfg (now + 1) st t cd Hin ltac:(lia)).
Qed.

Lemma expiry_boundary_is_live_witness :
  let cd := {| cd_StreamGroupId := Some "sg-1"; cd_StreamSessionArn := "arn:1";
               cd_Timestamp := 1000 |} in
  let P := healthy "ACTIVE" "ANSWER" in
  let req := token_request (Some "T") in
  let poll := GetSignalResponse node_local shipped_config P in
  (expired shipped_config 601000 (Some (cd_Timestamp cd)) = false ∧
   member "error" (resp (poll 601000 601001 req one_session))
     ≠ Some (JStr "Connection token expired") ∧
   (truthy (cd_StreamGroupId cd) = true →
      calls (poll 601000 601001 req one_session) = [CallGet (session_ref cd)]) ∧
   connectionDatabase (cleanup shipped_config 601000 one_session) !! "T" = Some cd) ∧
  (expired shipped_config (601000 + 1) (Some (cd_Timestamp cd)) = true ∧
   status (resp (poll (601000 + 1) 601001 req one_session)) = 404 ∧
   calls (poll (601000 + 1) 601001 req one_session) = [] ∧
   connectionDatabase (cleanup shipped_config (601000 + 1) one_session) !! "T" = None).
Proof.
  apply (expiry_boundary_is_live node_local shipped_config (healthy "ACTIVE" "ANSWER")
           601000 601001 (token_request (Some "T")) one_session "T"
           {| cd_StreamGroupId := Some "sg-1"; cd_StreamSessionArn := "arn:1";
              cd_Timestamp := 1000 |}).
  - reflexivity.
  - reflexivity.
  - reflexivity.
Defined.

(** *** The scenario of the specification, end to end *)

(** Create against a provider that returns handle ["arn:1"]; poll while
    the session is [ACTIVATING], then when it is [ACTIVE] with payload
    ["ANSWER"]; destroy; poll again. *)
Example end_to_end_scenario :
  let rt := node_local in
  let cfg := shipped_config in
  let created := CreateStreamSession rt cfg (healthy "ACTIVATING" EmptyString)
                   "uuid-1" 1000 create_request no_sessions in
  let req := token_request (Some "uuid-1") in
  let poll1 := GetSignalResponse rt cfg (healthy "ACTIVATING" EmptyString)
                 2000 2000 req (after created) in
  let poll2 := GetSignalResponse rt cfg (healthy "ACTIVE" "ANSWER")
                 3000 3000 req (after poll1) in
  let destroyed := DestroyStreamSession (healthy "ACTIVE" "ANSWER") req (after poll2) in
  let poll3 := GetSignalResponse rt cfg (healthy "ACTIVE" "ANSWER")
                 4000 4000 req (after destroyed) in
  resp created = Response 200 (JObj [("Token", JStr "uuid-1")]) ∧
  resp poll1 = Response 200 (JObj [("SignalResponse", JStr EmptyString)]) ∧
  resp poll2 = Response 200 (JObj [("SignalResponse", JStr "ANSWER")]) ∧
  resp destroyed = Response 200 (JObj []) ∧
  status (resp poll3) = 404.
Proof. cbv zeta. repeat split; vm_compute; reflexivity. Qed.

(** When the removal armed by Create fires, the token is gone and no
    removal is pending for it. *)
Lemma removal_fires_forgets (tok : string) (st : state) :
  connectionDatabase (removal_fires tok st) !! tok = None ∧
  ∀ due, (due, tok) ∉ timers (removal_fires tok st).
Proof.
  split; [apply lookup_delete_eq|].
  intros due [Hne _]%list_elem_of_filter. by apply Hne.
Qed.

(** ** Properties of the browser flows *)

Module BrowserFacts.

Import Browser.
Local Open Scope list_scope.

(** *** Traces of the building blocks *)

Lemma trace_bind {A B} (m : action A) (k : A → action B) :
  trace (bind m k) =
    trace m ++ match ending m with Normal a => trace (k a) | _ => [] end.
Proof.
  destruct m as [tr [a| |]]; cbn; [|by rewrite app_nil_r..].
  by destruct (k a).
Qed.

Lemma try_catch_thrown {A} (body handler : action A) :
  ending body = Thrown →
  try_catch body handler = (trace body ++ trace handler, ending handler).
Proof.
  destruct body as [tr c]; cbn. intros ->. by destruct handler.
Qed.

Lemma try_catch_passes {A} (body handler : action A) :
  ending body ≠ Thrown → try_catch body handler = body.
Proof. destruct body as [tr [a| |]]; cbn; done. Qed.

Lemma on_error_cases (panel : string) (w : world) :
  on_error panel w =
    if throws w AtClose then ([LoadingStop], Thrown)
    else if throws w AtShowError then ([LoadingStop; PeerClose], Thrown)
    else ([LoadingStop; PeerClose; ShowPanel panel], Normal tt).
Proof.
  unfold on_error, call. by destruct (throws w AtClose), (throws w AtShowError).
Qed.

(** *** Traces that do not show a panel *)

Section Silent.

Context (panel : string).

Lemma silent_app tr1 tr2 :
  silent panel (tr1 ++ tr2) = silent panel tr1 && silent panel tr2.
Proof. apply forallb_app. Qed.

Lemma silent_bind {A B} (m : action A) (k : A → action B) :
  silent panel (trace m) = true →
  (∀ a, silent panel (trace (k a)) = true) →
  silent panel (trace (bind m k)) = true.
Proof.
  intros Hm Hk. rewrite trace_bind, silent_app, Hm. cbn.
  destruct (ending m); auto.
Qed.

Lemma silent_call w s e :
  shows panel e = false → silent panel (trace (call w s e)) = true.
Proof. intros He. unfold call. destruct (throws w s); cbn; [done|]. by rewrite He. Qed.

Lemma silent_poll_loop rest : silent panel (trace (poll_loop rest)) = true.
Proof.
  induction rest as [|[[|a r]|] rest IH]; cbn; try done.
  by destruct (poll_loop rest).
Qed.

Lemma closed_after_cons closed e tr :
  closed_after closed (e :: tr) = closed_after (is_close e) tr.
Proof.
  unfold closed_after. destruct tr as [|e' tr]; [done|].
  rewrite last_cons_cons.
  destruct (last (e' :: tr)) eqn:E; [done|]. by apply last_None in E.
Qed.

Lemma guarded_app closed tr1 tr2 :
  guarded panel closed (tr1 ++ tr2) =
    guarded panel closed tr1 && guarded panel (closed_after closed tr1) tr2.
Proof.
  revert closed. induction tr1 as [|e tr1 IH]; intros closed; [done|].
  cbn [app guarded]. rewrite IH, closed_after_cons. apply andb_assoc.
Qed.

Lemma guarded_silent closed tr :
  silent panel tr = true → guarded panel closed tr = true.
Proof.
  revert closed. induction tr as [|e tr IH]; intros closed; [done|].
  cbn. intros [He Htr]%andb_true_iff. rewrite IH by done.
  apply negb_true_iff in He. by rewrite He.
Qed.

Lemma guarded_split closed tr pre post :
  guarded panel closed tr = true →
  tr = pre ++ ShowPanel panel :: post →
  (pre = [] ∧ closed = true) ∨ ∃ pre', pre = pre' ++ [PeerClose].
Proof.
  revert closed tr. induction pre as [|e pre IH]; intros closed tr Hg ->.
  - left. cbn in Hg. rewrite String.eqb_refl in Hg.
    by apply andb_true_iff in Hg as [-> _].
  - right. cbn [app guarded] in Hg. apply andb_true_iff in Hg as [_ Hg].
    destruct (IH _ _ Hg eq_refl) as [[-> Hc] | [pre' ->]].
    + exists []. by destruct e.
    + by exists (e :: pre').
Qed.

End Silent.

(** *** The error path *)

Lemma try_block_silent (f : flow) (w : world) :
  silent (error_panel f) (trace (try_block f w)) = true.
Proof.
  destruct f as [isLocal|]; cbn [try_block error_panel].
  - unfold appStartStreaming_try.
    destruct (throws w AtHandleOrientation); [done|].
    destruct (orientation_ok w); [|done]. cbn [negb].
    repeat first
      [ apply silent_poll_loop
      | by apply silent_call
      | by destruct (webkit w)
      | done
      | apply silent_bind; [|intros ?] ].
  - unfold appReconnectStreaming_try.
    repeat first
      [ by apply silent_call
      | done
      | apply silent_bind; [|intros ?] ].
Qed.

Lemma on_error_guarded (f : flow) (w : world) (closed : bool) :
  guarded (error_panel f) closed (trace (on_error (error_panel f) w)) = true.
Proof.
  rewrite on_error_cases.
  destruct (throws w AtClose), (throws w AtShowError), f; done.
Qed.

(** What a run that enters its [try] block has done: the token read of
    the reconnect flow, the [try] block, the [catch] block when the
    [try] block threw, the audio cleanup. *)
Lemma run_trace (f : flow) (w : world) :
  enters_try f w = true →
  ∃ pre post,
    trace (run f w) =
      pre ++ trace (try_block f w) ++
      (match ending (try_block f w) with
       | Thrown => trace (on_error (error_panel f) w)
       | _ => []
       end) ++ post ∧
    (pre = [] ∨ pre = [TokenRead]) ∧ (post = [] ∨ post = [AudioRemove]).
Proof.
  intros Henter. destruct f as [isLocal|]; cbn [run try_block error_panel] in *.
  - exists []. unfold appStartStreaming.
    set (b := appStartStreaming_try isLocal w).
    set (h := on_error "appError" w).
    destruct (ending b) as [a| |] eqn:Hb.
    + rewrite try_catch_passes by (rewrite Hb; done).
      destruct b as [tr c]; cbn in Hb; subst c. cbn.
      eexists. split; [reflexivity|]. split; [by left|].
      destruct (existsb is_audio_start tr); auto.
    + rewrite (try_catch_thrown b h Hb).
      assert (Hh : ending h ≠ Waiting).
      { unfold h. rewrite on_error_cases.
        by destruct (throws w AtClose), (throws w AtShowError). }
      destruct (ending h) eqn:Eh; [|  |done]; cbn; rewrite <- app_assoc;
        (eexists; split; [reflexivity|]; split; [by left|];
         destruct (existsb is_audio_start _); auto).
    + rewrite try_catch_passes by (rewrite Hb; done).
      destruct b as [tr c]; cbn in Hb; subst c. cbn.
      exists []. rewrite !app_nil_r. auto.
  - exists [TokenRead], []. unfold appReconnectStreaming, call.
    apply negb_true_iff in Henter. rewrite Henter.
    set (b := appReconnectStreaming_try w).
    set (h := on_error "appReconnectError" w).
    rewrite trace_bind. cbn [emit trace ending fst snd].
    rewrite app_nil_r. split; [|auto]. f_equal.
    destruct (ending b) as [a| |] eqn:Hb.
    + rewrite try_catch_passes by (rewrite Hb; done). by rewrite app_nil_r.
    + by rewrite (try_catch_thrown b h Hb).
    + rewrite try_catch_passes by (rewrite Hb; done). by rewrite app_nil_r.
Qed.

(** In every run, whatever throws and whatever returns, the error panel
    goes on display only right after the peer was closed. *)
Lemma error_panel_only_after_close (f : flow) (w : world) :
  guarded (error_panel f) false (trace (run f w)) = true.
Proof.
  destruct (enters_try f w) eqn:Henter.
  - destruct (run_trace f w Henter) as (pre & post & -> & Hpre & Hpost).
    rewrite !guarded_app.
    rewrite (guarded_silent _ _ pre) by (by destruct Hpre as [-> | ->]).
    rewrite (guarded_silent _ _ (trace (try_block f w))) by apply try_block_silent.
    rewrite (guarded_silent _ _ post) by (by destruct Hpost as [-> | ->]).
    rewrite andb_true_r. cbn [andb].
    destruct (ending (try_block f w)); [done| |done].
    apply on_error_guarded.
  - destruct f as [isLocal|]; [done|]. cbn in Henter.
    apply negb_false_iff in Henter.
    cbn. unfold appReconnectStreaming, call. by rewrite Henter.
Qed.

(** What the error path does keep. When the [try] block of the connect
    or of the reconnect flow throws, at whatever call: the error panel
    is displayed only right after the peer object was closed; and when
    [close] and [appShowPanel] return, the run ends with loading screen
    stopped, peer closed, error panel shown, in this order, followed by
    nothing but the removal of the silent audio element, so that the
    error panel is the one on display. When [close] or [appShowPanel]
    throws instead, the error panel is not displayed at all. *)
Theorem error_path_closes_peer_first (f : flow) (w : world) :
  enters_try f w = true →
  ending (try_block f w) = Thrown →
  let tr := trace (run f w) in
  (∀ pre post, tr = pre ++ ShowPanel (error_panel f) :: post →
     ∃ pre', pre = pre' ++ [PeerClose]) ∧
  (if throws w AtClose || throws w AtShowError
   then silent (error_panel f) tr = true
   else ∃ pre post,
          tr = pre ++ [LoadingStop; PeerClose; ShowPanel (error_panel f)] ++ post ∧
          (post = [] ∨ post = [AudioRemove]) ∧
          displayed tr = Some (error_panel f)).
Proof.
  intros Henter Hthrown tr. split.
  - intros pre post Htr.
    destruct (guarded_split _ _ _ _ _ (error_panel_only_after_close f w) Htr)
      as [[_ ?] | ?]; done.
  - unfold tr.
    destruct (run_trace f w Henter) as (pre & post & -> & Hpre & Hpost).
    rewrite Hthrown, on_error_cases.
    destruct (throws w AtClose), (throws w AtShowError); cbn [orb trace fst].
    + rewrite !silent_app, try_block_silent.
      by destruct Hpre as [-> | ->], Hpost as [-> | ->].
    + rewrite !silent_app, try_block_silent.
      by destruct Hpre as [-> | ->], Hpost as [-> | ->].
    + rewrite !silent_app, try_block_silent.
      by destruct Hpre as [-> | ->], Hpost as [-> | ->].
    + exists (pre ++ trace (try_block f w)), post.
      split; [by rewrite <- !app_assoc|]. split; [done|].
      unfold displayed. rewrite !omap_app.
      replace (omap panel_of post) with (@nil string)
        by (by destruct Hpost as [-> | ->]).
      cbn. rewrite app_assoc. apply last_snoc.
Qed.

Lemma error_path_closes_peer_first_witness :
  let tr := trace (run (Start true) create_fails) in
  (∀ pre post, tr = pre ++ ShowPanel (error_panel (Start true)) :: post →
     ∃ pre', pre = pre' ++ [PeerClose]) ∧
  (if throws create_fails AtClose || throws create_fails AtShowError
   then silent (error_panel (Start true)) tr = true
   else ∃ pre post,
          tr = pre ++ [LoadingStop; PeerClose; ShowPanel (error_panel (Start true))] ++ post ∧
          (post = [] ∨ post = [AudioRemove]) ∧
          displayed tr = Some (error_panel (Start true))).
Proof.
  apply (error_path_closes_peer_first (Start true) create_fails).
  - reflexivity.
  - reflexivity.
Defined.

(** A [catch] block in which [close] throws leaves the run without a
    closed peer and without the error panel: the panel on display is one
    the [try] block showed, if it showed any. *)
Lemma close_throws_no_error_panel (f : flow) (w : world) :
  enters_try f w = true →
  ending (try_block f w) = Thrown →
  throws w AtClose = true →
  ∃ pre post,
    trace (run f w) = pre ++ trace (try_block f w) ++ [LoadingStop] ++ post ∧
    (pre = [] ∨ pre = [TokenRead]) ∧ (post = [] ∨ post = [AudioRemove]) ∧
    displayed (trace (run f w)) = displayed (trace (try_block f w)) ∧
    displayed (trace (run f w)) ≠ Some (error_panel f).
Proof.
  intros Henter Hthrown Hclose.
  destruct (run_trace f w Henter) as (pre & post & Htr & Hpre & Hpost).
  rewrite Hthrown, on_error_cases, Hclose in Htr. cbn [trace fst] in Htr.
  assert (Hd : displayed (trace (run f w)) = displayed (trace (try_block f w))).
  { rewrite Htr. unfold displayed. rewrite !omap_app.
    replace (omap panel_of pre) with (@nil string) by (by destruct Hpre as [-> | ->]).
    replace (omap panel_of post) with (@nil string) by (by destruct Hpost as [-> | ->]).
    cbn. by rewrite app_nil_r. }
  exists pre, post. split; [exact Htr|]. split; [exact Hpre|]. split; [exact Hpost|].
  split; [exact Hd|]. rewrite Hd. unfold displayed. intros Hlast.
  apply last_Some in Hlast as [l' Hl'].
  pose proof (try_block_silent f w) as Hs.
  assert (Hin : error_panel f ∈ omap panel_of (trace (try_block f w))).
  { rewrite Hl'. apply elem_of_app. right. left. }
  apply list_elem_of_omap in Hin as (e & He & Hp).
  unfold silent in Hs. rewrite forallb_forall in Hs.
  specialize (Hs e ltac:(by apply list_elem_of_In)).
  destruct e; try discriminate. injection Hp as ->.
  cbn in Hs. by rewrite String.eqb_refl in Hs.
Qed.

(** C8, at the failing input. The page's [window.myGameLiftStreams] is
    [null], as [handleEndGameAndViewMetrics] leaves it: in the connect
    and in the reconnect flow [generateSignalRequest] throws in the
    [try] block and [close] throws again in the [catch] block, so the
    flow itself ends in that exception with the connecting panel on
    display; the peer is not closed and the error panel is never
    shown. *)
Theorem null_sdk_object_shows_no_error_panel (isLocal isWebkit : bool)
    (polled : list (option string)) :
  let w := sdk_object_null isWebkit polled in
  run (Start isLocal) w =
    ((if isWebkit then [AudioStart] else []) ++
     [ShowPanel "appConnecting"; MetricsDisabled; LoadingStart; LoadingStop] ++
     (if isWebkit then [AudioRemove] else []), Thrown) ∧
  run Reconnect w =
    ([TokenRead; ShowPanel "appConnecting"; LoadingStart; LoadingStop], Thrown) ∧
  ∀ f : flow,
    ending (try_block f w) = Thrown ∧
    displayed (trace (run f w)) = Some "appConnecting" ∧
    (PeerClose ∉ trace (run f w)) ∧
    (ShowPanel (error_panel f) ∉ trace (run f w)).
Proof.
  cbv zeta.
  assert (Hstart : run (Start isLocal) (sdk_object_null isWebkit polled) =
    ((if isWebkit then [AudioStart] else []) ++
     [ShowPanel "appConnecting"; MetricsDisabled; LoadingStart; LoadingStop] ++
     (if isWebkit then [AudioRemove] else []), Thrown)).
  { by destruct isWebkit. }
  assert (Hre : run Reconnect (sdk_object_null isWebkit polled) =
    ([TokenRead; ShowPanel "appConnecting"; LoadingStart; LoadingStop], Thrown)).
  { done. }
  split; [exact Hstart|]. split; [exact Hre|].
  intros [isLocal'|].
  - assert (Hstart' : run (Start isLocal') (sdk_object_null isWebkit polled) =
      ((if isWebkit then [AudioStart] else []) ++
       [ShowPanel "appConnecting"; MetricsDisabled; LoadingStart; LoadingStop] ++
       (if isWebkit then [AudioRemove] else []), Thrown)).
    { by destruct isWebkit. }
    rewrite Hstart'. split; [by destruct isWebkit|].
    split; [by destruct isWebkit|].
    destruct isWebkit; cbn; split; intros Hin;
      repeat (apply elem_of_cons in Hin as [Hin|Hin]; [discriminate|]);
      by apply elem_of_nil in Hin.
  - rewrite Hre. split; [done|]. split; [done|].
    cbn; split; intros Hin;
      repeat (apply elem_of_cons in Hin as [Hin|Hin]; [discriminate|]);
      by apply elem_of_nil in Hin.
Qed.

End BrowserFacts.

(** ** Further properties of the server *)

Local Open Scope list_scope.

(** *** Command line *)

Section CommandLineFacts.

Context (x : string).

Lemma indexOf_absent (l : list string) : x ∉ l → indexOf l x = -1.
Proof.
  induction l as [|a l IH]; [done|].
  intros [Hne Hl]%not_elem_of_cons. cbn.
  rewrite (proj2 (String.eqb_neq a x)) by congruence.
  by rewrite (IH Hl).
Qed.

Lemma indexOf_first (pre post : list string) :
  x ∉ pre → indexOf (pre ++ x :: post) x = Z.of_nat (length pre).
Proof.
  induction pre as [|a pre IH]; cbn.
  - intros _. by rewrite String.eqb_refl.
  - intros [Hne Hl]%not_elem_of_cons.
    rewrite (proj2 (String.eqb_neq a x)) by congruence.
    rewrite (IH Hl).
    destruct (Z.eqb_spec (Z.of_nat (length pre)) (-1)); lia.
Qed.

Lemma first_occurrence (l : list string) :
  x ∉ l ∨ ∃ pre post, l = pre ++ x :: post ∧ x ∉ pre.
Proof.
  induction l as [|a l IH]; [left; apply not_elem_of_nil|].
  destruct (decide (a = x)) as [->|Hne].
  - right. exists [], l. split; [done | apply not_elem_of_nil].
  - destruct IH as [Hl | (pre & post & -> & Hpre)].
    + left. apply not_elem_of_cons. split; [congruence | done].
    + right. exists (a :: pre), post. split; [done|].
      apply not_elem_of_cons. split; [congruence | done].
Qed.

Lemma at_index_after (pre rest : list string) :
  at_index (pre ++ x :: rest) (Z.of_nat (length pre) + 1) = head rest.
Proof.
  unfold at_index. destruct (Z.ltb_spec (Z.of_nat (length pre) + 1) 0); [lia|].
  replace (Z.to_nat (Z.of_nat (length pre) + 1)) with (length pre + 1)%nat by lia.
  rewrite lookup_app_r by lia.
  replace (length pre + 1 - length pre)%nat with 1%nat by lia.
  by destruct rest.
Qed.

Lemma getCommandLineValue_first (pre rest : list string) :
  x ∉ pre → getCommandLineValue (pre ++ x :: rest) x = head rest.
Proof.
  intros Hpre. unfold getCommandLineValue. rewrite (indexOf_first _ _ Hpre).
  destruct (Z.eqb_spec (Z.of_nat (length pre)) (-1)); [lia|].
  apply at_index_after.
Qed.

End CommandLineFacts.

Lemma getCommandLineValue_parts (args : list string) (param : string) :
  (∀ v, (∃ pre post, args = pre ++ param :: v :: post ∧ param ∉ pre) →
        getCommandLineValue args param = Some v) ∧
  (param ∉ args ∨ (∃ pre, args = pre ++ [param] ∧ param ∉ pre) →
     getCommandLineValue args param = None).
Proof.
  destruct (first_occurrence param args) as [Habs | (pre & rest & -> & Hpre)].
  - assert (Hnone : getCommandLineValue args param = None).
    { unfold getCommandLineValue. by rewrite (indexOf_absent _ _ Habs). }
    split; [|done]. intros v (pre & post & -> & _).
    exfalso. apply Habs. apply elem_of_app. right. left.
  - rewrite (getCommandLineValue_first _ _ _ Hpre). split.
    + intros v (pre' & post & Heq & Hpre').
      assert (Hlen : length pre = length pre').
      { apply (f_equal (λ l, indexOf l param)) in Heq.
        rewrite (indexOf_first _ _ _ Hpre), (indexOf_first _ _ _ Hpre') in Heq. lia. }
      apply app_inj_1 in Heq as [_ Heq]; [|done]. by injection Heq as ->.
    + intros [Habs | (pre' & Heq & Hpre')].
      * exfalso. apply Habs. apply elem_of_app. right. left.
      * assert (Hlen : length pre = length pre').
        { apply (f_equal (λ l, indexOf l param)) in Heq.
          rewrite (indexOf_first _ _ _ Hpre), (indexOf_first _ _ _ Hpre') in Heq. lia. }
        apply app_inj_1 in Heq as [_ Heq]; [|done]. by injection Heq as ->.
Qed.

(** X1. The value of a command-line parameter is the argument right after
    its first occurrence, whatever that argument is; there is none when
    the parameter does not occur or its first occurrence is the last
    argument. *)
Theorem getCommandLineValue_spec (args : list string) (param : string) :
  (∀ v, getCommandLineValue args param = Some v ↔
        ∃ pre post, args = pre ++ param :: v :: post ∧ param ∉ pre) ∧
  (getCommandLineValue args param = None ↔
     param ∉ args ∨ ∃ pre, args = pre ++ [param] ∧ param ∉ pre).
Proof.
  destruct (first_occurrence param args) as [Habs | (pre & rest & -> & Hpre)].
  - assert (Hnone : getCommandLineValue args param = None).
    { unfold getCommandLineValue. by rewrite (indexOf_absent _ _ Habs). }
    rewrite Hnone. split.
    + intros v. split; [done|]. intros (pre & post & -> & _).
      exfalso. apply Habs. apply elem_of_app. right. left.
    + split; [by left | done].
  - rewrite (getCommandLineValue_first _ _ _ Hpre). split.
    + intros v. split.
      * destruct rest as [|v' post]; cbn; [done|]. intros [= ->]. by exists pre, post.
      * intros (pre' & post & Heq & Hpre').
        assert (Hlen : length pre = length pre').
        { apply (f_equal (λ l, indexOf l param)) in Heq.
          rewrite (indexOf_first _ _ _ Hpre), (indexOf_first _ _ _ Hpre') in Heq. lia. }
        apply app_inj_1 in Heq as [_ Heq]; [|done]. by injection Heq as ->.
    + split.
      * destruct rest; [|done]. intros _. right. by exists pre.
      * intros [Habs | (pre' & Heq & Hpre')].
        -- exfalso. apply Habs. apply elem_of_app. right. left.
        -- assert (Hlen : length pre = length pre').
           { apply (f_equal (λ l, indexOf l param)) in Heq.
             rewrite (indexOf_first _ _ _ Hpre), (indexOf_first _ _ _ Hpre') in Heq. lia. }
           apply app_inj_1 in Heq as [_ Heq]; [|done]. by injection Heq as ->.
Qed.

(** X2. An override returns the argument right after the first
    occurrence of the parameter and, when that argument is not empty,
    sets the variable named by the key to it, leaving every other
    variable alone; when the argument is empty it is returned and the
    environment stays as it is. When the parameter does not occur, or
    only as the last argument, nothing is returned and the environment
    stays as it is. *)
Theorem applyCommandLineEnvOverride_spec (args : list string) (param key : string)
    (env : gmap string string) :
  let '(val, env') := applyCommandLineEnvOverride args param key env in
  (∀ pre v post, args = pre ++ param :: v :: post → param ∉ pre →
     val = Some v ∧
     (v ≠ EmptyString →
        env' = <[key := v]> env ∧ env' !! key = Some v ∧
        ∀ k, k ≠ key → env' !! k = env !! k) ∧
     (v = EmptyString → env' = env)) ∧
  (param ∉ args ∨ (∃ pre, args = pre ++ [param] ∧ param ∉ pre) →
     val = None ∧ env' = env).
Proof.
  unfold applyCommandLineEnvOverride.
  destruct (getCommandLineValue_parts args param) as [Hsome Hnone].
  split.
  - intros pre v post Hargs Hpre.
    assert (Hv : getCommandLineValue args param = Some v).
    { apply Hsome. by exists pre, post. }
    rewrite Hv. split; [done|]. split.
    + intros Hne. destruct v as [|a v]; [done|].
      split; [done|]. split; [by rewrite lookup_insert_eq|].
      intros k Hk. by rewrite lookup_insert_ne.
    + by intros ->.
  - intros Hout. apply Hnone in Hout. by rewrite Hout.
Qed.

Lemma applyCommandLineEnvOverride_spec_witness :
  let args := ["node"; "server.js"; "--region"; "eu-west-1"] in
  let '(val, env') := applyCommandLineEnvOverride args "--region" "AWS_REGION" ∅ in
  val = Some "eu-west-1" ∧ env' !! "AWS_REGION" = Some "eu-west-1" ∧
  env' !! "AWS_PROFILE" = None.
Proof.
  cbv zeta.
  pose proof (applyCommandLineEnvOverride_spec
                ["node"; "server.js"; "--region"; "eu-west-1"] "--region" "AWS_REGION" ∅)
    as Hspec.
  destruct (applyCommandLineEnvOverride
              ["node"; "server.js"; "--region"; "eu-west-1"] "--region" "AWS_REGION" ∅)
    as [val env'].
  destruct Hspec as [Hfound _].
  assert (Hpre : "--region" ∉ ["node"; "server.js"]).
  { intros Hin. repeat (apply elem_of_cons in Hin as [Hin|Hin]; [discriminate|]).
    by apply elem_of_nil in Hin. }
  destruct (Hfound ["node"; "server.js"] "eu-west-1" [] eq_refl Hpre) as (Hval & Hset & _).
  destruct (Hset ltac:(discriminate)) as (_ & Hkey & Hother).
  split; [exact Hval|]. split; [exact Hkey|].
  rewrite Hother by discriminate. reflexivity.
Defined.

(** *** Stream group identifiers *)

Lemma sg_pattern_inv (least : nat) (id : string) :
  sg_pattern least id = true ↔
  ∃ rest, id = String "s" (String "g" (String "-" rest)) ∧
          all_alnum rest = true ∧ (least ≤ String.length rest)%nat.
Proof.
  split.
  - destruct id as [|c1 [|c2 [|c3 rest]]].
    + discriminate.
    + destruct c1 as [[] [] [] [] [] [] [] []]; discriminate.
    + destruct c1 as [[] [] [] [] [] [] [] []]; try discriminate;
        destruct c2 as [[] [] [] [] [] [] [] []]; discriminate.
    + destruct c1 as [[] [] [] [] [] [] [] []]; try discriminate;
        destruct c2 as [[] [] [] [] [] [] [] []]; try discriminate;
        destruct c3 as [[] [] [] [] [] [] [] []]; try discriminate.
      cbn. intros [Hal Hlen]%andb_true_iff. exists rest.
      split; [done|]. split; [done|]. by apply Nat.leb_le.
  - intros (rest & -> & Hal & Hlen). cbn. rewrite Hal. cbn. by apply Nat.leb_le.
Qed.

Lemma sg_pattern_truthy (least : nat) (id : string) :
  sg_pattern least id = true → truthy (Some id) = true.
Proof. by intros (rest & -> & _)%sg_pattern_inv. Qed.

Lemma sg_pattern_weaken (a b : nat) (id : string) :
  (a ≤ b)%nat → sg_pattern b id = true → sg_pattern a id = true.
Proof.
  intros Hab (rest & -> & Hal & Hlen)%sg_pattern_inv.
  apply sg_pattern_inv. exists rest. split; [done|]. split; [done | lia].
Qed.

Lemma cdk_entry_accepts (env : option string) (id : string) :
  cdk_entry env = Some id ↔ env = Some id ∧ sg_pattern 5 id = true.
Proof.
  unfold cdk_entry. destruct env as [id'|]; [|split; [done | by intros [? ?]]].
  destruct (sg_pattern 5 id') eqn:E.
  - rewrite (sg_pattern_truthy _ _ E). cbn. split.
    + by intros [= <-].
    + by intros [[= ->] _].
  - rewrite orb_true_r. split; [done|]. intros [[= ->] Hp]. congruence.
Qed.

Lemma validateStreamGroupId_accepts (id id' : string) :
  validateStreamGroupId id = Some id' ↔ id' = id ∧ sg_pattern 9 id = true.
Proof.
  unfold validateStreamGroupId. destruct (sg_pattern 9 id); cbn.
  - split; [by intros [= <-] | by intros [-> _]].
  - split; [done | by intros [_ ?]].
Qed.

(** X3. Whatever [validateStreamGroupId] of the stack file lets through, the
    entry file of the CDK app lets through as well, unchanged: ["sg-"]
    followed by letters and digits only, twelve characters or more in
    all. The entry file alone lets shorter identifiers through. *)
Theorem validateStreamGroupId_stricter (id id' : string) :
  validateStreamGroupId id = Some id' →
  id' = id ∧
  cdk_entry (Some id) = Some id ∧
  (12 ≤ String.length id)%nat ∧
  (∃ rest, id = ("sg-" +:+ rest) ∧ all_alnum rest = true) ∧
  (∃ short, cdk_entry (Some short) = Some short ∧ validateStreamGroupId short = None).
Proof.
  intros [-> Hp]%validateStreamGroupId_accepts.
  split; [done|]. split.
  { apply cdk_entry_accepts. split; [done|]. by apply (sg_pattern_weaken 5 9); [lia|]. }
  apply sg_pattern_inv in Hp as (rest & -> & Hal & Hlen).
  split; [cbn; lia|]. split; [by exists rest|].
  exists "sg-12345". by vm_compute.
Qed.

Lemma validateStreamGroupId_stricter_witness :
  "sg-000000000" = "sg-000000000" ∧
  cdk_entry (Some "sg-000000000") = Some "sg-000000000" ∧
  (12 ≤ String.length "sg-000000000")%nat ∧
  (∃ rest, "sg-000000000" = ("sg-" +:+ rest) ∧ all_alnum rest = true) ∧
  (∃ short, cdk_entry (Some short) = Some short ∧ validateStreamGroupId short = None).
Proof.
  apply (validateStreamGroupId_stricter "sg-000000000" "sg-000000000").
  reflexivity.
Defined.

(** X4. A stream group id that either CDK entry point accepts, deployed as
    the [STREAM_GROUP_ID] of the hosted server, is the one every Create
    goes to the provider with: the request's own [StreamGroupId] is
    ignored, the configuration error is never answered, and the record
    of a successful Create names the deployed stream group. *)
Theorem deployed_create_uses_stack_id (env : option string) (id : string)
    (rt : runtime) (cfg : config) (P : provider) (uuid : string) (now : Z)
    (req : request) (st : state) :
  cdk_entry env = Some id ∨ stack_entry env = Some id →
  let o := CreateStreamSession (deployed id rt) cfg P uuid now req st in
  ∃ rq, calls o = [CallStart rq] ∧ start_Identifier rq = Some id ∧
    member "message" (resp o) ≠ Some (JStr "STREAM_GROUP_ID not configured") ∧
    ∀ arn, startStreamSession P rq = Ok arn →
      connectionDatabase (after o) !! uuid =
        Some {| cd_StreamGroupId := Some id; cd_StreamSessionArn := arn;
                cd_Timestamp := now |}.
Proof.
  intros Hid o.
  assert (Hp : ∃ least, sg_pattern least id = true).
  { destruct Hid as [[_ Hp]%cdk_entry_accepts | [Heq Hp]%validateStreamGroupId_accepts].
    - by exists 5%nat.
    - exists 9%nat. by rewrite Heq. }
  destruct Hp as [least Hp].
  assert (Hr : provider_reached (deployed id rt) = true).
  { unfold provider_reached. cbn. apply (sg_pattern_truthy _ _ Hp). }
  exists (startRequestData (deployed id rt) cfg req).
  destruct (create_reached (deployed id rt) cfg P uuid now req st Hr) as [Hc Hcb].
  fold o in Hc, Hcb. split; [exact Hc|]. split; [reflexivity|].
  destruct (startStreamSession P (startRequestData (deployed id rt) cfg req))
    as [m|arn] eqn:Hs; cbn in Hcb; injection Hcb as Hresp Hafter.
  - rewrite Hresp. split; [done|]. intros arn [=].
  - rewrite Hresp. split; [done|]. intros arn' [= <-].
    rewrite Hafter. cbn. by rewrite lookup_insert_eq.
Qed.

Lemma deployed_create_uses_stack_id_witness :
  let o := CreateStreamSession (deployed "sg-000000000" node_local) shipped_config
             (healthy "ACTIVE" "ANSWER") "uuid-1" 5 create_request no_sessions in
  ∃ rq, calls o = [CallStart rq] ∧ start_Identifier rq = Some "sg-000000000" ∧
    member "message" (resp o) ≠ Some (JStr "STREAM_GROUP_ID not configured") ∧
    ∀ arn, startStreamSession (healthy "ACTIVE" "ANSWER") rq = Ok arn →
      connectionDatabase (after o) !! "uuid-1" =
        Some {| cd_StreamGroupId := Some "sg-000000000"; cd_StreamSessionArn := arn;
                cd_Timestamp := 5 |}.
Proof.
  apply (deployed_create_uses_stack_id None "sg-000000000" node_local shipped_config
           (healthy "ACTIVE" "ANSWER") "uuid-1" 5 create_request no_sessions).
  right. reflexivity.
Defined.

(** *** Create, then the other endpoints *)

(** X5. A successful Create stores exactly one record: the minted token then
    maps to the stream group Create resolved, the handle the provider
    returned and the time of the call; every other token maps to what it
    mapped to before; one removal is armed, due 24 hours later. *)
Theorem create_then_lookup (rt : runtime) (cfg : config) (P : provider)
    (uuid : string) (now : Z) (req : request) (st : state) (arn : string) :
  provider_reached rt = true →
  startStreamSession P (startRequestData rt cfg req) = Ok arn →
  uuid ≠ EmptyString →
  let o := CreateStreamSession rt cfg P uuid now req st in
  member "Token" (resp o) = Some (JStr uuid) ∧
  lookupToken (connectionDatabase (after o)) (Some uuid) =
    Own {| cd_StreamGroupId := resolveStreamGroupId rt req;
           cd_StreamSessionArn := arn; cd_Timestamp := now |} ∧
  (∀ t, t ≠ uuid →
     lookupToken (connectionDatabase (after o)) (Some t) =
     lookupToken (connectionDatabase st) (Some t)) ∧
  timers (after o) = (now + 86400000, uuid) :: timers st.
Proof.
  intros Hr Hok Hne o.
  destruct (create_reached rt cfg P uuid now req st Hr) as [_ Hcb].
  fold o in Hcb. rewrite Hok in Hcb. cbn in Hcb. injection Hcb as Hresp Hafter.
  rewrite Hresp, Hafter. cbn [connectionDatabase timers].
  split; [done|]. split; [|split; [|done]].
  - apply lookupToken_own; [done|]. apply lookup_insert_eq.
  - intros t Ht. destruct t as [|a t']; [done|]. unfold lookupToken.
    by rewrite lookup_insert_ne.
Qed.

Lemma create_then_lookup_witness :
  let o := CreateStreamSession node_local shipped_config (healthy "ACTIVE" "ANSWER")
             "uuid-1" 5 create_request one_session in
  member "Token" (resp o) = Some (JStr "uuid-1") ∧
  lookupToken (connectionDatabase (after o)) (Some "uuid-1") =
    Own {| cd_StreamGroupId := resolveStreamGroupId node_local create_request;
           cd_StreamSessionArn := "arn:1"; cd_Timestamp := 5 |} ∧
  (∀ t, t ≠ "uuid-1" →
     lookupToken (connectionDatabase (after o)) (Some t) =
     lookupToken (connectionDatabase one_session) (Some t)) ∧
  timers (after o) = (5 + 86400000, "uuid-1") :: timers one_session.
Proof.
  apply (create_then_lookup node_local shipped_config (healthy "ACTIVE" "ANSWER")
           "uuid-1" 5 create_request one_session "arn:1").
  - reflexivity.
  - reflexivity.
  - discriminate.
Defined.

Lemma happen_keeps_record (rt : runtime) (cfg : config) (t : string)
    (cd : ConnectionData) (h : happening) (st : state) :
  spares cfg t (cd_Timestamp cd) h →
  connectionDatabase st !! t = Some cd →
  connectionDatabase (happen rt cfg st h) !! t = Some cd.
Proof.
  intros Hspare Hin.
  destruct h as [P uuid now req|P now now' req|P req|P req|now|token]; cbn in *.
  - unfold CreateStreamSession.
    destruct (negb (IS_LOCAL rt) && negb (truthy (env_STREAM_GROUP_ID rt))); [done|].
    cbv zeta. unfold CreateStreamSession_callback.
    destruct (startStreamSession P _); cbn; [done|].
    by rewrite lookup_insert_ne.
  - unfold GetSignalResponse. cbv zeta.
    destruct (_ || _); [done|]. by destruct (expired _ _ _).
  - unfold ReconnectStreamSession. cbv zeta. by destruct (negb _).
  - unfold DestroyStreamSession. cbv zeta. destruct (negb _); [done|].
    unfold DestroyStreamSession_callback.
    destruct (terminateStreamSession P _); cbn; [done|].
    destruct (Token req) as [t'|]; [|done].
    rewrite lookup_delete_ne; [done|]. congruence.
  - by apply cleanup_keeps_live.
  - by rewrite lookup_delete_ne.
Qed.

Lemma history_keeps_record (rt : runtime) (cfg : config) (t : string)
    (cd : ConnectionData) (hs : list happening) (st : state) :
  Forall (spares cfg t (cd_Timestamp cd)) hs →
  connectionDatabase st !! t = Some cd →
  connectionDatabase (history rt cfg hs st) !! t = Some cd.
Proof.
  unfold history. intros Hall. revert st.
  induction Hall as [|h hs Hh _ IH]; intros st Hin; [done|].
  cbn. apply IH. by apply happen_keeps_record.
Qed.

(** X6. After a successful Create, whatever the server goes through
    next (other Creates, polls and reconnects, Destroys of other tokens,
    sweeps while the record is not older than the timeout, removals
    armed for other tokens), a request that presents the token reaches
    the provider with the stream group Create resolved and the handle
    the provider returned, whatever else it carries: Poll Signal while
    the token is not older than the timeout (and the stream group is
    not empty), Reconnect and Destroy without regard to the age. *)
Theorem create_then_use (rt : runtime) (cfg : config) (P P' : provider)
    (uuid : string) (now later later' : Z) (req next : request) (st : state)
    (arn : string) (hs : list happening) :
  provider_reached rt = true →
  startStreamSession P (startRequestData rt cfg req) = Ok arn →
  Token next = Some uuid →
  uuid ≠ EmptyString →
  Forall (spares cfg uuid now) hs →
  let st1 := history rt cfg hs (after (CreateStreamSession rt cfg P uuid now req st)) in
  let sg := resolveStreamGroupId rt req in
  (truthy sg = true → later - now ≤ STREAM_CONNECTION_TIMEOUT_SECONDS cfg * 1000 →
     calls (GetSignalResponse rt cfg P' later later' next st1) =
       [CallGet {| ref_Identifier := sg; ref_StreamSessionIdentifier := Some arn |}]) ∧
  calls (ReconnectStreamSession P' next st1) =
    [CallConnect {| conn_Identifier := sg; conn_StreamSessionIdentifier := Some arn;
                    conn_SignalRequest := SignalRequest next |}] ∧
  calls (DestroyStreamSession P' next st1) =
    [CallTerminate {| ref_Identifier := sg; ref_StreamSessionIdentifier := Some arn |}].
Proof.
  intros Hr Hok Htok Hne Hspared st1 sg.
  destruct (create_ok rt cfg P uuid now req st arn Hr Hok) as (_ & Hin & _).
  apply (history_keeps_record rt cfg uuid
           {| cd_StreamGroupId := resolveStreamGroupId rt req;
              cd_StreamSessionArn := arn; cd_Timestamp := now |} hs _ Hspared) in Hin.
  fold st1 in Hin.
  pose proof (lookupToken_own _ uuid _ Hne Hin) as Hl. rewrite <- Htok in Hl.
  split; [|split].
  - intros Hsg Hage.
    by destruct (poll_live rt cfg P' later later' next st1 _ Hl Hsg Hage) as [? _].
  - by destruct (reconnect_present P' next st1 _ Hl) as [? _].
  - by destruct (destroy_present P' next st1 uuid _ Htok Hl) as [? _].
Qed.

Lemma create_then_use_witness :
  let P := healthy "ACTIVE" "ANSWER" in
  let next := reconnect_request "uuid-1" "OFFER2" in
  let hs := [Polled P 50 50 (token_request (Some "uuid-1"));
             Created P "uuid-2" 60 create_request;
             Swept 70;
             Destroyed P (token_request (Some "uuid-2"));
             Removed "uuid-2";
             Reconnected P (reconnect_request "uuid-1" "OFFER1")] in
  let st1 := history node_local shipped_config hs
               (after (CreateStreamSession node_local shipped_config P "uuid-1" 5
                         create_request no_sessions)) in
  let sg := resolveStreamGroupId node_local create_request in
  (truthy sg = true → 100 - 5 ≤ STREAM_CONNECTION_TIMEOUT_SECONDS shipped_config * 1000 →
     calls (GetSignalResponse node_local shipped_config P 100 101 next st1) =
       [CallGet {| ref_Identifier := sg; ref_StreamSessionIdentifier := Some "arn:1" |}]) ∧
  calls (ReconnectStreamSession P next st1) =
    [CallConnect {| conn_Identifier := sg; conn_StreamSessionIdentifier := Some "arn:1";
                    conn_SignalRequest := SignalRequest next |}] ∧
  calls (DestroyStreamSession P next st1) =
    [CallTerminate {| ref_Identifier := sg; ref_StreamSessionIdentifier := Some "arn:1" |}].
Proof.
  apply (create_then_use node_local shipped_config (healthy "ACTIVE" "ANSWER")
           (healthy "ACTIVE" "ANSWER") "uuid-1" 5 100 101 create_request
           (reconnect_request "uuid-1" "OFFER2") no_sessions "arn:1").
  - reflexivity.
  - reflexivity.
  - reflexivity.
  - discriminate.
  - repeat constructor; cbn; first [discriminate | done | lia].
Defined.

(** *** Sweeps, removals and the life of a token *)

Lemma state_eq (st1 st2 : state) :
  connectionDatabase st1 = connectionDatabase st2 →
  timers st1 = timers st2 → st1 = st2.
Proof. destruct st1, st2. cbn. by intros -> ->. Qed.

(** X7. A sweep makes every earlier sweep redundant: sweeping at [s1] and
    then at a later [s2], or the other way round, leaves what the sweep
    at [s2] alone leaves. Sweeps and the removals armed by Create
    commute. *)
Theorem later_sweep_subsumes (cfg : config) (s1 s2 : Z) (st : state) (tok : string) :
  s1 ≤ s2 →
  cleanup cfg s2 (cleanup cfg s1 st) = cleanup cfg s2 st ∧
  cleanup cfg s1 (cleanup cfg s2 st) = cleanup cfg s2 st ∧
  removal_fires tok (cleanup cfg s2 st) = cleanup cfg s2 (removal_fires tok st).
Proof.
  intros Hle. split; [|split].
  - apply state_eq; [|done]. apply map_eq. intros t.
    rewrite !cleanup_lookup.
    destruct (connectionDatabase st !! t) as [cd|]; [|done].
    repeat case_bool_decide; try done; lia.
  - apply state_eq; [|done]. apply map_eq. intros t.
    rewrite !cleanup_lookup.
    destruct (connectionDatabase st !! t) as [cd|]; [|done].
    repeat case_bool_decide; try done; lia.
  - apply state_eq; [|done]. apply map_eq. intros t.
    rewrite cleanup_lookup. cbn [removal_fires connectionDatabase].
    destruct (decide (t = tok)) as [->|Hne].
    + by rewrite !lookup_delete_eq.
    + rewrite !lookup_delete_ne by done. apply cleanup_lookup.
Qed.

Lemma later_sweep_subsumes_witness :
  cleanup shipped_config 700000 (cleanup shipped_config 5 one_session)
    = cleanup shipped_config 700000 one_session ∧
  cleanup shipped_config 5 (cleanup shipped_config 700000 one_session)
    = cleanup shipped_config 700000 one_session ∧
  removal_fires "T" (cleanup shipped_config 700000 one_session)
    = cleanup shipped_config 700000 (removal_fires "T" one_session).
Proof.
  apply (later_sweep_subsumes shipped_config 5 700000 one_session "T"). lia.
Defined.

(** X8. The first sweep that runs once a token is older than the timeout
    ends its life at every endpoint: Poll Signal, Reconnect and Destroy
    then answer 404 without a provider call, although the removal that
    Create armed for 24 hours later is still pending. *)
Theorem sweep_ends_token (rt : runtime) (cfg : config) (P P' : provider)
    (uuid : string) (now swept_at later later' : Z) (req next : request)
    (st : state) (arn : string) :
  provider_reached rt = true →
  startStreamSession P (startRequestData rt cfg req) = Ok arn →
  Token next = Some uuid →
  uuid ∉ Object_prototype →
  swept_at - now > STREAM_CONNECTION_TIMEOUT_SECONDS cfg * 1000 →
  let st1 := after (CreateStreamSession rt cfg P uuid now req st) in
  let st2 := cleanup cfg swept_at st1 in
  connectionDatabase st1 !! uuid =
    Some {| cd_StreamGroupId := resolveStreamGroupId rt req;
            cd_StreamSessionArn := arn; cd_Timestamp := now |} ∧
  GetSignalResponse rt cfg P' later later' next st2 = respond 404 notFound_data st2 ∧
  ReconnectStreamSession P' next st2 = respond 404 [] st2 ∧
  DestroyStreamSession P' next st2 = respond 404 [] st2 ∧
  (now + 86400000, uuid) ∈ timers st2.
Proof.
  intros Hr Hok Htok Hname Hage st1 st2.
  destruct (create_ok rt cfg P uuid now req st arn Hr Hok) as (_ & Hin & Htimers).
  fold st1 in Hin, Htimers.
  assert (Hgone : connectionDatabase st2 !! uuid = None).
  { by apply (cleanup_drops_old cfg swept_at st1 uuid _ Hin). }
  assert (Hf : is_truthy (lookupToken (connectionDatabase st2) (Token next)) = false).
  { rewrite Htok. by rewrite (lookupToken_unknown _ uuid Hgone Hname). }
  split; [exact Hin|].
  split; [by apply poll_not_truthy|].
  split; [by apply reconnect_not_truthy|].
  split; [by apply destroy_not_truthy|].
  unfold st2. cbn [cleanup timers]. rewrite Htimers. left.
Qed.

Lemma sweep_ends_token_witness :
  let P := healthy "ACTIVE" "ANSWER" in
  let next := reconnect_request "uuid-1" "OFFER2" in
  let st1 := after (CreateStreamSession node_local shipped_config P "uuid-1" 5
                      create_request no_sessions) in
  let st2 := cleanup shipped_config 600006 st1 in
  connectionDatabase st1 !! "uuid-1" =
    Some {| cd_StreamGroupId := resolveStreamGroupId node_local create_request;
            cd_StreamSessionArn := "arn:1"; cd_Timestamp := 5 |} ∧
  GetSignalResponse node_local shipped_config P 600007 600008 next st2
    = respond 404 notFound_data st2 ∧
  ReconnectStreamSession P next st2 = respond 404 [] st2 ∧
  DestroyStreamSession P next st2 = respond 404 [] st2 ∧
  (5 + 86400000, "uuid-1") ∈ timers st2.
Proof.
  apply (sweep_ends_token node_local shipped_config (healthy "ACTIVE" "ANSWER")
           (healthy "ACTIVE" "ANSWER") "uuid-1" 5 600006 600007 600008 create_request
           (reconnect_request "uuid-1" "OFFER2") no_sessions "arn:1").
  - reflexivity.
  - reflexivity.
  - reflexivity.
  - apply (bool_decide_eq_false_1 ("uuid-1" ∈ Object_prototype)). vm_compute. reflexivity.
  - vm_compute. reflexivity.
Defined.

(** X9. A successful Destroy deletes the record of its own token and nothing
    else: every other token keeps its record, and the removal armed at
    creation stays pending; when that removal fires later it finds
    nothing to delete. *)
Theorem destroy_removes_only_its_token (P : provider) (req : request) (st : state)
    (t : string) (cd : ConnectionData) (u : unit) :
  Token req = Some t →
  lookupToken (connectionDatabase st) (Token req) = Own cd →
  terminateStreamSession P (session_ref cd) = Ok u →
  let st' := after (DestroyStreamSession P req st) in
  connectionDatabase st' !! t = None ∧
  (∀ t', t' ≠ t → connectionDatabase st' !! t' = connectionDatabase st !! t') ∧
  timers st' = timers st ∧
  connectionDatabase (removal_fires t st') = connectionDatabase st'.
Proof.
  intros Ht Hl Hok st'.
  destruct (destroy_present P req st t cd Ht Hl) as [_ H]. rewrite Hok in H.
  destruct H as [_ Hafter]. fold st' in Hafter. rewrite Hafter. cbn.
  split; [apply lookup_delete_eq|]. split; [|split; [done|]].
  - intros t' Hne. by rewrite lookup_delete_ne.
  - apply delete_id. apply lookup_delete_eq.
Qed.

Lemma destroy_removes_only_its_token_witness :
  let st' := after (DestroyStreamSession (healthy "ACTIVE" "ANSWER")
                      (token_request (Some "T")) one_session) in
  connectionDatabase st' !! "T" = None ∧
  (∀ t', t' ≠ "T" → connectionDatabase st' !! t' = connectionDatabase one_session !! t') ∧
  timers st' = timers one_session ∧
  connectionDatabase (removal_fires "T" st') = connectionDatabase st'.
Proof.
  apply (destroy_removes_only_its_token (healthy "ACTIVE" "ANSWER")
           (token_request (Some "T")) one_session "T"
           {| cd_StreamGroupId := Some "sg-1"; cd_StreamSessionArn := "arn:1";
              cd_Timestamp := 1000 |} tt).
  - reflexivity.
  - reflexivity.
  - reflexivity.
Defined.

(** *** What Poll Signal and Reconnect never do *)

(** X10. Poll Signal and Reconnect never change the registry or the pending
    removals, whatever the request and whatever the provider answers.
    Poll Signal asks the provider at most once, and only about a record
    stored under the token of the request, with a stream group and not
    older than the timeout. *)
Theorem poll_and_reconnect_read_only (rt : runtime) (cfg : config) (P : provider)
    (now now' : Z) (req : request) (st : state) :
  let poll := GetSignalResponse rt cfg P now now' req st in
  after poll = st ∧
  after (ReconnectStreamSession P req st) = st ∧
  (calls poll = [] ∨
   ∃ t cd, Token req = Some t ∧ connectionDatabase st !! t = Some cd ∧
           truthy (cd_StreamGroupId cd) = true ∧
           now - cd_Timestamp cd ≤ STREAM_CONNECTION_TIMEOUT_SECONDS cfg * 1000 ∧
           calls poll = [CallGet (session_ref cd)]).
Proof.
  intros poll. unfold poll. split; [|split].
  - unfold GetSignalResponse. repeat case_match; done.
  - unfold ReconnectStreamSession. repeat case_match; done.
  - destruct (lookupToken (connectionDatabase st) (Token req)) as [|name|cd] eqn:Hl.
    + left. rewrite poll_not_truthy; [done | by rewrite Hl].
    + left. rewrite poll_no_stream_group; [done | by rewrite Hl].
    + destruct (truthy (cd_StreamGroupId cd)) eqn:Hsg.
      * destruct (decide (now - cd_Timestamp cd
                          > STREAM_CONNECTION_TIMEOUT_SECONDS cfg * 1000)) as [Hold|Hlive].
        -- left. by rewrite (poll_expired rt cfg P now now' req st cd Hl Hsg Hold).
        -- right. destruct (lookupToken_Own_inv _ _ _ Hl) as (t & Ht & _ & Hin).
           exists t, cd.
           destruct (poll_live rt cfg P now now' req st cd Hl Hsg ltac:(lia)) as [Hc _].
           split; [done|]. split; [done|]. split; [done|]. split; [lia | done].
      * left. rewrite poll_no_stream_group; [done | by rewrite Hl].
Qed.

(** *** The protocol override *)

Lemma get_set_member_same (k : string) (v : json) (ms : list (string * json)) :
  get_member k (set_member k v ms) = Some v.
Proof.
  induction ms as [|[k' v'] ms IH]; cbn.
  - by rewrite String.eqb_refl.
  - destruct (String.eqb k k') eqn:E; cbn.
    + by rewrite String.eqb_refl.
    + by rewrite E.
Qed.

Lemma get_set_member_other (k k0 : string) (v : json) (ms : list (string * json)) :
  k0 ≠ k → get_member k0 (set_member k v ms) = get_member k0 ms.
Proof.
  intros Hne. induction ms as [|[k' v'] ms IH]; cbn.
  - by rewrite (proj2 (String.eqb_neq k0 k)).
  - destruct (String.eqb_spec k k') as [<-|Hk]; cbn.
    + by rewrite (proj2 (String.eqb_neq k0 k)).
    + by rewrite IH.
Qed.

(** X11. A payload that does not parse is passed on as it is. A payload that
    parses to an object is serialised again with [webSdkProtocolUrl] set
    to the override script and every other member as it was, in at most
    one member more. *)
Theorem overrideProtocol_keeps_members (rt : runtime) (now : Z) (payload : string) :
  (JSON_parse rt payload = None → overrideProtocol rt now payload = payload) ∧
  (∀ ms, JSON_parse rt payload = Some (JObj ms) →
     ∃ ms', overrideProtocol rt now payload = JSON_stringify rt (JObj ms') ∧
       get_member "webSdkProtocolUrl" ms'
         = Some (JStr ("/override_protocol.js?" +:+ pretty now)) ∧
       (∀ k, k ≠ "webSdkProtocolUrl" → get_member k ms' = get_member k ms) ∧
       (length ms ≤ length ms' ≤ length ms + 1)%nat).
Proof.
  unfold overrideProtocol. split.
  - by intros ->.
  - intros ms ->. eexists. split; [reflexivity|].
    split; [apply get_set_member_same|].
    split; [intros k Hk; by apply get_set_member_other|].
    generalize (JStr ("/override_protocol.js?" +:+ pretty now)). intros v.
    induction ms as [|[k' v'] ms IH]; cbn [set_member length]; [lia|].
    destruct (String.eqb "webSdkProtocolUrl" k'); cbn [length]; lia.
Qed.

(** ** Further properties of the browser flows *)

Module PageFacts.

Import Browser Page.

(** *** The polling loop *)

Lemma poll_loop_empty_answers (n : nat) (rest : list (option string)) :
  poll_loop (replicate n (Some EmptyString) ++ rest) =
    (polls n ++ trace (poll_loop rest), ending (poll_loop rest)).
Proof.
  induction n as [|n IH]; cbn.
  - by destruct (poll_loop rest).
  - by rewrite IH.
Qed.

Lemma polls_succ (n : nat) :
  polls n ++ [Slept; Posted "/api/GetSignalResponse"] = polls (n + 1).
Proof. induction n as [|n IH]; cbn; [done | by rewrite IH]. Qed.

Lemma poll_loop_payload (n : nat) (c : ascii) (s : string) (rest : list (option string)) :
  poll_loop (replicate n (Some EmptyString) ++ Some (String c s) :: rest) =
    (polls (n + 1), Normal (String c s)).
Proof. rewrite poll_loop_empty_answers. cbn. by rewrite polls_succ. Qed.

(** X12. The loop sleeps before every poll, keeps polling as long as the
    answers are empty, and ends at the first answer that is not: with
    that answer when it is a payload, with the exception when the poll
    throws. What comes after that answer is never asked for. While all
    answers are empty it does not return: after the last of them it has
    slept again and waits for the next. *)
Theorem poll_loop_first_answer (n : nat) (rest : list (option string)) :
  (∀ c s, poll_loop (replicate n (Some EmptyString) ++ Some (String c s) :: rest) =
          (polls (n + 1), Normal (String c s))) ∧
  poll_loop (replicate n (Some EmptyString) ++ None :: rest) =
    (polls n ++ [Slept], Thrown) ∧
  poll_loop (replicate n (Some EmptyString)) = (polls n ++ [Slept], Waiting).
Proof.
  split; [|split].
  - intros c s. apply poll_loop_payload.
  - by rewrite poll_loop_empty_answers.
  - by rewrite <- (app_nil_r (replicate n _)), poll_loop_empty_answers.
Qed.

(** *** Polling against the server *)

Section PollingTheServer.

Context (rt : runtime) (cfg : config) (req : request) (st : state).
Context (cd : ConnectionData).

Hypothesis Hrecord : lookupToken (connectionDatabase st) (Token req) = Own cd.
Hypothesis Hgroup : truthy (cd_StreamGroupId cd) = true.

Lemma activating_reply (step : provider * Z) (a : option string) :
  activating cfg cd step → answered (reply_at rt cfg req st step) a →
  a = Some EmptyString.
Proof.
  intros [[payload Hget] Hage] Ha.
  destruct (poll_live rt cfg step.1 step.2 step.2 req st cd Hrecord Hgroup Hage)
    as (_ & _ & Hr).
  rewrite Hget in Hr. cbn in Hr. unfold reply_at in Ha. rewrite Hr in Ha.
  destruct a as [s|]; cbn in Ha; [|done].
  by destruct Ha as [_ [= <-]].
Qed.

Lemma active_reply (P : provider) (now : Z) (payload : string) (a : option string) :
  "--override_protocol" ∉ argv rt →
  getStreamSession P (session_ref cd) = Ok (StreamSessionDataOf "ACTIVE" payload) →
  now - cd_Timestamp cd ≤ STREAM_CONNECTION_TIMEOUT_SECONDS cfg * 1000 →
  answered (reply_at rt cfg req st (P, now)) a → a = Some payload.
Proof.
  intros Hflag Hget Hage Ha.
  destruct (poll_live rt cfg P now now req st cd Hrecord Hgroup Hage) as (_ & _ & Hr).
  rewrite Hget in Hr. cbn in Hr. rewrite bool_decide_eq_false_2 in Hr by done.
  unfold reply_at in Ha. cbn [fst snd] in Ha. rewrite Hr in Ha.
  destruct a as [s|]; cbn in Ha; [|done].
  by destruct Ha as [_ [= <-]].
Qed.

Lemma expired_reply (P : provider) (now : Z) (a : option string) :
  now - cd_Timestamp cd > STREAM_CONNECTION_TIMEOUT_SECONDS cfg * 1000 →
  answered (reply_at rt cfg req st (P, now)) a → a = None.
Proof.
  intros Hage Ha. unfold reply_at in Ha. cbn [fst snd] in Ha.
  rewrite (poll_expired rt cfg P now now req st cd Hrecord Hgroup Hage) in Ha.
  destruct a as [s|]; [|done]. by destruct Ha as [[=] _].
Qed.

Lemma activating_replies (waiting later : list (provider * Z))
    (given : list (option string)) :
  Forall (activating cfg cd) waiting →
  Forall2 answered (reply_at rt cfg req st <$> (waiting ++ later)) given →
  ∃ given', given = replicate (length waiting) (Some EmptyString) ++ given' ∧
            Forall2 answered (reply_at rt cfg req st <$> later) given'.
Proof.
  intros Hw. revert given. induction Hw as [|step waiting Hstep _ IH]; intros given.
  - cbn. eauto.
  - cbn. intros (a & given0 & Ha & Hrest & ->)%Forall2_cons_inv_l.
    destruct (IH _ Hrest) as (given' & -> & Hlater).
    rewrite (activating_reply step a Hstep Ha). eauto.
Qed.

End PollingTheServer.

(** X13. While the provider reports [ACTIVATING] and the token is not older
    than the timeout the browser keeps polling; at the first poll that
    finds the session [ACTIVE] the loop returns the provider's payload
    (which is not empty; the server runs without [--override_protocol]),
    after one poll more than the activating ones. Here [doPost] is taken
    to return the body of a 200 reply and to throw for any other. *)
Theorem polling_until_active (rt : runtime) (cfg : config) (req : request)
    (st : state) (cd : ConnectionData) (waiting later : list (provider * Z))
    (P : provider) (now : Z) (c : ascii) (payload : string)
    (given : list (option string)) :
  lookupToken (connectionDatabase st) (Token req) = Own cd →
  truthy (cd_StreamGroupId cd) = true →
  "--override_protocol" ∉ argv rt →
  Forall (activating cfg cd) waiting →
  getStreamSession P (session_ref cd)
    = Ok (StreamSessionDataOf "ACTIVE" (String c payload)) →
  now - cd_Timestamp cd ≤ STREAM_CONNECTION_TIMEOUT_SECONDS cfg * 1000 →
  Forall2 answered (reply_at rt cfg req st <$> (waiting ++ (P, now) :: later)) given →
  poll_loop given = (polls (length waiting + 1), Normal (String c payload)).
Proof.
  intros Hl Hsg Hflag Hw Hget Hage Hgiven.
  destruct (activating_replies rt cfg req st cd Hl Hsg _ _ _ Hw Hgiven)
    as (given' & -> & Hlater).
  cbn in Hlater. apply Forall2_cons_inv_l in Hlater as (a & rest & Ha & _ & ->).
  rewrite (active_reply rt cfg req st cd Hl Hsg P now _ a Hflag Hget Hage Ha).
  apply poll_loop_payload.
Qed.

(** X14. When the token grows older than the timeout while the session is
    still activating, the poll that comes too late is answered 404, the
    loop throws, and the connect flow ends closed on its error panel
    (with [close] and [appShowPanel] returning). *)
Theorem polling_until_expiry (rt : runtime) (cfg : config) (req : request)
    (st : state) (cd : ConnectionData) (waiting later : list (provider * Z))
    (P : provider) (now : Z) (given : list (option string)) :
  lookupToken (connectionDatabase st) (Token req) = Own cd →
  truthy (cd_StreamGroupId cd) = true →
  Forall (activating cfg cd) waiting →
  now - cd_Timestamp cd > STREAM_CONNECTION_TIMEOUT_SECONDS cfg * 1000 →
  Forall2 answered (reply_at rt cfg req st <$> (waiting ++ (P, now) :: later)) given →
  poll_loop given = (polls (length waiting) ++ [Slept], Thrown) ∧
  ∀ (isLocal : bool) (w : world),
    answers w = given → orientation_ok w = true →
    (∀ s, throws w s = false) →
    ending (appStartStreaming_try isLocal w) = Thrown ∧
    displayed (trace (appStartStreaming isLocal w)) = Some "appError".
Proof.
  intros Hl Hsg Hw Hage Hgiven.
  destruct (activating_replies rt cfg req st cd Hl Hsg _ _ _ Hw Hgiven)
    as (given' & -> & Hlater).
  cbn in Hlater. apply Forall2_cons_inv_l in Hlater as (a & rest & Ha & _ & ->).
  rewrite (expired_reply rt cfg req st cd Hl Hsg P now a Hage Ha).
  assert (Hloop : poll_loop (replicate (length waiting) (Some EmptyString) ++ None :: rest)
                  = (polls (length waiting) ++ [Slept], Thrown))
    by (by rewrite poll_loop_empty_answers).
  split; [exact Hloop|].
  intros isLocal w Hans Hori Hthrows.
  assert (Htry : ending (appStartStreaming_try isLocal w) = Thrown).
  { unfold appStartStreaming_try, call. rewrite !Hthrows, Hori, Hans, Hloop. cbn.
    by destruct (webkit w). }
  split; [exact Htry|].
  unfold appStartStreaming.
  rewrite (BrowserFacts.try_catch_thrown _ _ Htry), BrowserFacts.on_error_cases.
  rewrite !Hthrows. unfold finally, displayed. cbn [trace fst snd ending].
  rewrite !omap_app. cbn.
  destruct (existsb is_audio_start _); cbn; rewrite ?app_nil_r; apply last_snoc.
Qed.

Lemma polling_until_active_witness :
  poll_loop [Some EmptyString; Some "ANSWER"] = (polls (1 + 1), Normal "ANSWER").
Proof.
  apply (polling_until_active node_local shipped_config (token_request (Some "T"))
           one_session
           {| cd_StreamGroupId := Some "sg-1"; cd_StreamSessionArn := "arn:1";
              cd_Timestamp := 1000 |}
           [(healthy "ACTIVATING" EmptyString, 2000)] []
           (healthy "ACTIVE" "ANSWER") 3000 "A" "NSWER").
  - reflexivity.
  - reflexivity.
  - apply (bool_decide_eq_false_1 ("--override_protocol" ∈ argv node_local)).
    vm_compute. reflexivity.
  - constructor; [|constructor]. split; [by exists EmptyString | vm_compute; discriminate].
  - reflexivity.
  - vm_compute. discriminate.
  - constructor; [by vm_compute|]. constructor; [by vm_compute | constructor].
Defined.

Lemma polling_until_expiry_witness :
  poll_loop [Some EmptyString; None] = (polls 1 ++ [Slept], Thrown) ∧
  ∀ (isLocal : bool) (w : world),
    answers w = [Some EmptyString; None] → orientation_ok w = true →
    (∀ s, throws w s = false) →
    ending (appStartStreaming_try isLocal w) = Thrown ∧
    displayed (trace (appStartStreaming isLocal w)) = Some "appError".
Proof.
  apply (polling_until_expiry node_local shipped_config (token_request (Some "T"))
           one_session
           {| cd_StreamGroupId := Some "sg-1"; cd_StreamSessionArn := "arn:1";
              cd_Timestamp := 1000 |}
           [(healthy "ACTIVATING" EmptyString, 2000)] []
           (healthy "ACTIVATING" EmptyString) 700000).
  - reflexivity.
  - reflexivity.
  - constructor; [|constructor]. split; [by exists EmptyString | vm_compute; discriminate].
  - vm_compute. reflexivity.
  - constructor; [by vm_compute|]. constructor; [by vm_compute | constructor].
Defined.

(** *** The connect flow when nothing throws *)

Lemma polls_no_audio (n : nat) : existsb is_audio_start (polls n) = false.
Proof. induction n as [|n IH]; [done | exact IH]. Qed.

Lemma polls_no_panel (n : nat) : omap panel_of (polls n) = [].
Proof. induction n as [|n IH]; [done | exact IH]. Qed.

Lemma polls_no_close (n : nat) : PeerClose ∉ polls n.
Proof.
  induction n as [|n IH]; [apply not_elem_of_nil|]. cbn.
  rewrite !not_elem_of_cons. done.
Qed.

Lemma polls_no_error_panel (n : nat) : ShowPanel "appError" ∉ polls n.
Proof.
  induction n as [|n IH]; [apply not_elem_of_nil|]. cbn.
  rewrite !not_elem_of_cons. done.
Qed.

Lemma try_until_answer (isLocal : bool) (w : world) (n : nat) (c : ascii) (s : string)
    (rest : list (option string)) :
  throws w AtHandleOrientation = false → orientation_ok w = true →
  throws w AtShowConnecting = false → throws w AtDisableMetrics = false →
  throws w AtGenerateSignalRequest = false → throws w AtReadSetup = false →
  throws w AtCreate = false → throws w AtProcessSignalResponse = false →
  answers w = replicate n (Some EmptyString) ++ Some (String c s) :: rest →
  appStartStreaming_try isLocal w =
    bind (before_polling isLocal w ++ polls (n + 1)
            ++ [SignalResponseProcessed (String c s); LoadingStop], Normal tt)
         (λ _, call w AtSetQueryParams (QueryParamsSet isLocal) ;;
               call w AtShowReconnectLinks ReconnectLinksShown ;;
               call w AtShowStreaming (ShowPanel "appStreaming") ;;
               call w AtLayout LayoutApplied).
Proof.
  intros H1 Hori H2 H3 H4 H5 H6 H7 Hans.
  unfold appStartStreaming_try, before_polling, call.
  rewrite H1, Hori, H2, H3, H4, H5, H6, H7, Hans, poll_loop_payload.
  cbn [negb]. destruct (webkit w); cbn;
    destruct (throws w AtSetQueryParams), (throws w AtShowReconnectLinks),
      (throws w AtShowStreaming), (throws w AtLayout); cbn;
    rewrite <- ?app_assoc; cbn; rewrite ?app_nil_r; reflexivity.
Qed.

(** X15. When no call throws and the polls are answered empty [n] times and
    then with a payload, the connect flow runs through: [n + 1] polls,
    the payload handed to the peer, the streaming panel on display at
    the end; the peer is never closed and the error panel never shown. *)
Theorem connect_runs_through (isLocal : bool) (w : world) (n : nat) (c : ascii)
    (s : string) (rest : list (option string)) :
  (∀ site, throws w site = false) →
  orientation_ok w = true →
  answers w = replicate n (Some EmptyString) ++ Some (String c s) :: rest →
  let tr := trace (appStartStreaming isLocal w) in
  appStartStreaming isLocal w =
    (before_polling isLocal w ++ polls (n + 1) ++
     [SignalResponseProcessed (String c s); LoadingStop; QueryParamsSet isLocal;
      ReconnectLinksShown; ShowPanel "appStreaming"; LayoutApplied] ++
     (if webkit w then [AudioRemove] else []),
     Normal tt) ∧
  displayed tr = Some "appStreaming" ∧
  (PeerClose ∉ tr) ∧ (ShowPanel "appError" ∉ tr).
Proof.
  intros Hthrows Hori Hans tr.
  assert (Heq : appStartStreaming isLocal w =
    (before_polling isLocal w ++ polls (n + 1) ++
     [SignalResponseProcessed (String c s); LoadingStop; QueryParamsSet isLocal;
      ReconnectLinksShown; ShowPanel "appStreaming"; LayoutApplied] ++
     (if webkit w then [AudioRemove] else []), Normal tt)).
  { unfold appStartStreaming.
    rewrite (try_until_answer isLocal w n c s rest) by auto.
    unfold call. rewrite !Hthrows. cbn -[polls before_polling].
    rewrite !existsb_app, polls_no_audio. unfold before_polling.
    destruct (webkit w); cbn -[polls]; rewrite <- ?app_assoc; cbn -[polls];
      rewrite ?app_nil_r; reflexivity. }
  split; [exact Heq|]. unfold tr. rewrite Heq. cbn [trace fst].
  split; [|split].
  - unfold displayed, before_polling. rewrite !omap_app, polls_no_panel.
    by destruct (webkit w).
  - unfold before_polling.
    destruct (webkit w); cbn -[polls];
      rewrite ?not_elem_of_cons, !not_elem_of_app, ?not_elem_of_cons;
      repeat split; try done; try apply not_elem_of_nil; apply polls_no_close.
  - unfold before_polling.
    destruct (webkit w); cbn -[polls];
      rewrite ?not_elem_of_cons, !not_elem_of_app, ?not_elem_of_cons;
      repeat split; try done; try apply not_elem_of_nil; apply polls_no_error_panel.
Qed.

Lemma connect_runs_through_witness :
  let tr := trace (appStartStreaming true all_well) in
  appStartStreaming true all_well =
    (before_polling true all_well ++ polls (2 + 1) ++
     [SignalResponseProcessed "ANSWER"; LoadingStop; QueryParamsSet true;
      ReconnectLinksShown; ShowPanel "appStreaming"; LayoutApplied] ++
     (if webkit all_well then [AudioRemove] else []),
     Normal tt) ∧
  displayed tr = Some "appStreaming" ∧
  (PeerClose ∉ tr) ∧ (ShowPanel "appError" ∉ tr).
Proof.
  apply (connect_runs_through true all_well 2 "A" "NSWER" []).
  - reflexivity.
  - reflexivity.
  - reflexivity.
Defined.

(** X16. When the text of the locations field is one [JSON.parse] rejects (or
    is [null]), a connect in which everything else goes well still ends
    in the error: the answer has been handed to the peer and the stream
    is up when building the [location] query parameter throws, and the
    [catch] block closes the peer and shows the error panel. *)
Theorem unparsable_locations_end_in_error (JSON_parse : string → option json)
    (locations : string) (isLocal : bool) (w : world) (n : nat) (c : ascii)
    (s : string) (rest : list (option string)) :
  location_param JSON_parse locations = None →
  (∀ site, throws w site = false) →
  orientation_ok w = true →
  answers w = replicate n (Some EmptyString) ++ Some (String c s) :: rest →
  let tr := trace (appStartStreaming isLocal (with_locations JSON_parse locations w)) in
  tr = before_polling isLocal w ++ polls (n + 1) ++
       [SignalResponseProcessed (String c s); LoadingStop;
        LoadingStop; PeerClose; ShowPanel "appError"] ++
       (if webkit w then [AudioRemove] else []) ∧
  displayed tr = Some "appError".
Proof.
  intros Hloc Hthrows Hori Hans tr.
  set (w' := with_locations JSON_parse locations w).
  assert (Hset : throws w' AtSetQueryParams = true).
  { unfold w', with_locations. cbn. rewrite Hloc. apply orb_true_r. }
  assert (Hclose : throws w' AtClose = false) by apply Hthrows.
  assert (Hshow : throws w' AtShowError = false) by apply Hthrows.
  assert (Heq : tr = before_polling isLocal w ++ polls (n + 1) ++
       [SignalResponseProcessed (String c s); LoadingStop;
        LoadingStop; PeerClose; ShowPanel "appError"] ++
       (if webkit w then [AudioRemove] else [])).
  { unfold tr, appStartStreaming. fold w'.
    rewrite (try_until_answer isLocal w' n c s rest)
      by (first [apply Hthrows | exact Hori | exact Hans]).
    unfold call at 1. rewrite Hset.
    rewrite BrowserFacts.on_error_cases, Hclose, Hshow.
    cbn -[polls before_polling].
    rewrite !existsb_app, polls_no_audio. unfold before_polling.
    change (webkit w') with (webkit w).
    destruct (webkit w); cbn -[polls]; rewrite <- ?app_assoc; cbn -[polls];
      rewrite ?app_nil_r; reflexivity. }
  split; [exact Heq|]. rewrite Heq.
  unfold displayed, before_polling. rewrite !omap_app, polls_no_panel.
  by destruct (webkit w).
Qed.

Lemma unparsable_locations_end_in_error_witness :
  let w := with_locations JSONText.parse EmptyString all_well in
  let tr := trace (appStartStreaming true w) in
  tr = before_polling true all_well ++ polls (2 + 1) ++
       [SignalResponseProcessed "ANSWER"; LoadingStop;
        LoadingStop; PeerClose; ShowPanel "appError"] ++
       (if webkit all_well then [AudioRemove] else []) ∧
  displayed tr = Some "appError".
Proof.
  apply (unparsable_locations_end_in_error JSONText.parse EmptyString true all_well
           2 "A" "NSWER" []).
  - reflexivity.
  - reflexivity.
  - reflexivity.
  - reflexivity.
Defined.

(** *** [safeJSONParse] and the create request *)

Section SafeParseFacts.

Context (JSON_parse : string → option json) (trim : string → string).

(** X17. [safeJSONParse] answers an empty array only when the default is one,
    and with an array as default it always answers an array. Called
    without a default, as for the locations of the create request, it
    answers [undefined] exactly for a text that is empty or blank, that
    does not parse, or that parses to the empty array. *)
Theorem safeJSONParse_arrays (value : string) (defaultValue : option json) :
  (safeJSONParse JSON_parse trim value defaultValue = Some (JArr []) →
     defaultValue = Some (JArr [])) ∧
  (is_array defaultValue = true →
     is_array (safeJSONParse JSON_parse trim value defaultValue) = true) ∧
  (safeJSONParse JSON_parse trim value None = None ↔
     value = EmptyString ∨ trim value = EmptyString ∨
     JSON_parse value = None ∨ JSON_parse value = Some (JArr [])).
Proof.
  unfold safeJSONParse, default_region.
  split; [|split].
  - destruct (is_empty value || is_empty (trim value)).
    { by destruct defaultValue as [[]|]. }
    destruct (JSON_parse value) as [parsed|].
    + destruct defaultValue as [[| | | |ditems|]|], parsed as [| | | |[|x items]|];
        cbn; congruence.
    + by destruct defaultValue as [[]|].
  - intros Hd. destruct defaultValue as [[| | | |ditems|]|]; try done. cbn.
    destruct (is_empty value || is_empty (trim value)); [done|].
    destruct (JSON_parse value) as [[| | | |[|x items]|]|]; done.
  - cbn. destruct value as [|a v]; cbn; [by split; [left|]|].
    destruct (trim (String a v)) as [|a' v'] eqn:Ht; cbn; [by split; [right; left|]|].
    destruct (JSON_parse (String a v)) as [[| | | |[|x items]|]|]; cbn;
      (split; [try done; intros _; by repeat (first [left; done | right])
              | intros [|[|[|]]]; congruence]).
Qed.

(** X18. The create request as the server reads it: the user identifier, the
    offer, the stream group (in local mode) and the application
    identifier arrive as the setup form has them, but the locations never
    do: the browser sends them as [locations], the server reads
    [Locations], and the provider's start call gets no locations
    whatever the form holds. *)
Theorem browser_locations_never_arrive (isLocal : bool) (f : setup)
    (signalRequest cid : string) (b : list (string * json))
    (rt : runtime) (cfg : config) :
  create_body JSON_parse trim isLocal f signalRequest = Some b →
  let req := request_of_body cid b in
  Locations req = None ∧
  start_Locations (startRequestData rt cfg req) = None ∧
  UserId req = Some (setupUserId f) ∧
  SignalRequest req = Some signalRequest ∧
  StreamGroupId req = (if isLocal then Some (setupStreamGroupId f) else None) ∧
  ApplicationIdentifier req =
    (if is_empty (setupApplicationId f) then None else Some (setupApplicationId f)) ∧
  get_member "locations" b = safeJSONParse JSON_parse trim (setupLocations f) None.
Proof.
  unfold create_body. intros Hb.
  destruct (JSON_parse (or_else (setupArgs f) "[]")) as [launchArgs|]; [|done].
  destruct (JSON_parse (or_else (setupEnv f) "{}")) as [environment|]; [|done].
  injection Hb as <-.
  destruct (safeJSONParse JSON_parse trim (setupLocations f) None) as [loc|];
    destruct isLocal, (is_empty (setupApplicationId f)); cbn; done.
Qed.

End SafeParseFacts.

Lemma browser_locations_never_arrive_witness :
  let f := {| setupStreamGroupId := "sg-1"; setupApplicationId := EmptyString;
              setupUserId := "p1"; setupArgs := EmptyString; setupEnv := EmptyString;
              setupLocations := "[1]" |} in
  let b := [("StreamGroupId", JStr "sg-1"); ("ApplicationIdentifier", JNull);
            ("UserId", JStr "p1"); ("AdditionalLaunchArgs", JArr []);
            ("AdditionalEnvironmentVariables", JObj []);
            ("SignalRequest", JStr "OFFER"); ("locations", JArr [JNum 1])] in
  let req := request_of_body "c-1" b in
  Locations req = None ∧
  start_Locations (startRequestData node_local shipped_config req) = None ∧
  UserId req = Some (setupUserId f) ∧
  SignalRequest req = Some "OFFER" ∧
  StreamGroupId req = (if true then Some (setupStreamGroupId f) else None) ∧
  ApplicationIdentifier req =
    (if is_empty (setupApplicationId f) then None else Some (setupApplicationId f)) ∧
  get_member "locations" b = safeJSONParse JSONText.parse id (setupLocations f) None.
Proof.
  apply (browser_locations_never_arrive JSONText.parse id true
           {| setupStreamGroupId := "sg-1"; setupApplicationId := EmptyString;
              setupUserId := "p1"; setupArgs := EmptyString; setupEnv := EmptyString;
              setupLocations := "[1]" |} "OFFER" "c-1").
  vm_compute. reflexivity.
Defined.

(** *** [endStreamSession] against the server *)

Lemma destroy_body_empty (P : provider) (req : request) (st : state) :
  body (resp (DestroyStreamSession P req st)) = JObj [].
Proof.
  unfold DestroyStreamSession.
  destruct (negb (is_truthy _)); [done|].
  by destruct (terminateStreamSession P _).
Qed.

(** X19. Against this server [endStreamSession] never gets to its end: the
    reply of Destroy has no [analysis], whatever its status, so the call
    always lands in the [catch] block and alerts; the statistics are
    never displayed and the peer is never closed, also when the session
    was terminated on the server. The same happens when [fetch] fails. *)
Theorem endStreamSession_never_closes (P : provider) (req : request) (st : state)
    (token : option string) (w : end_world) :
  fetch_result w = NetworkError ∨
  fetch_result w = Reply (resp (DestroyStreamSession P req st)) →
  let tr := endStreamSession token w in
  (Alerted ∈ tr) ∧ (PeerClosed ∉ tr) ∧ (StatsDisplayed ∉ tr) ∧
  endStreamSession_try token w
    = (match fetch_result w with NetworkError => [] | Reply _ => [Fetched token] end,
       false).
Proof.
  intros Hfetch tr.
  assert (Htry : endStreamSession_try token w
    = (match fetch_result w with NetworkError => [] | Reply _ => [Fetched token] end,
       false)).
  { unfold endStreamSession_try.
    destruct Hfetch as [-> | ->]; [done|].
    destruct (negb (response_ok _)); [done|].
    unfold member. by rewrite destroy_body_empty. }
  split; [|split; [|split; [|exact Htry]]]; unfold tr, endStreamSession; rewrite Htry;
    destruct (fetch_result w), (audio_present w); cbn.
  all: try (rewrite !elem_of_cons; by repeat (first [left; done | right])).
  all: intros Hin; repeat (apply elem_of_cons in Hin as [Hin|Hin]; [discriminate|]);
    by apply elem_of_nil in Hin.
Qed.

Lemma endStreamSession_never_closes_witness :
  let w := {| fetch_result :=
                Reply (resp (DestroyStreamSession (healthy "ACTIVE" "ANSWER")
                               (token_request (Some "T")) one_session));
              displayWebRTCStats_throws := false; peer_present := true;
              close_throws := false; audio_present := false |} in
  let tr := endStreamSession (Some "T") w in
  (Alerted ∈ tr) ∧ (PeerClosed ∉ tr) ∧ (StatsDisplayed ∉ tr) ∧
  endStreamSession_try (Some "T") w
    = (match fetch_result w with NetworkError => [] | Reply _ => [Fetched (Some "T")] end,
       false).
Proof.
  apply (endStreamSession_never_closes (healthy "ACTIVE" "ANSWER")
           (token_request (Some "T")) one_session (Some "T")).
  right. reflexivity.
Defined.

(** *** Orientation *)

(** X20. [handleOrientation] refuses exactly a device that [checkIfMobile]
    takes for mobile and that is held upright: it then hides the setup
    panel, shows the rotate message, and a connect started in that state
    does nothing at all: no panel, no request, no audio. In every other
    case it shows the setup panel, hides the rotate message and lets the
    connect go on. Elements the page lacks stay absent. *)
Theorem handleOrientation_gate (n : navigator) (d : dom) :
  let '(ok, d') := handleOrientation n d in
  ok = negb (checkIfMobile n && portrait n) ∧
  appSetup d' = (λ _, if ok then "block" else "none") <$> appSetup d ∧
  rotate_display <$> rotateMessage d' =
    (λ _, if ok then "none" else "flex") <$> rotateMessage d ∧
  (ok = false →
     ∀ (isLocal : bool) (w : world),
       throws w AtHandleOrientation = false → orientation_ok w = ok →
       appStartStreaming isLocal w = ([], Normal tt)).
Proof.
  unfold handleOrientation.
  destruct (checkIfMobile n), (portrait n); cbn;
    (split; [done|]; split; [by destruct (appSetup d)|];
     split; [by destruct (rotateMessage d)|]); try done.
  intros _ isLocal w Hthrows Hori.
  unfold appStartStreaming, appStartStreaming_try. by rewrite Hthrows, Hori.
Qed.

Lemma prefix_lower (a b : string) :
  String.prefix a b = true → String.prefix (lower a) (lower b) = true.
Proof.
  revert b. induction a as [|x a IH]; intros [|y b]; cbn; try done.
  destruct (ascii_dec x y) as [->|]; [|done].
  intros H. destruct (ascii_dec (lower_ascii y) (lower_ascii y)); [|done]. by apply IH.
Qed.

Lemma includes_lower (needle hay : string) :
  includes needle hay = true → includes (lower needle) (lower hay) = true.
Proof.
  induction hay as [|y hay IH].
  - apply (prefix_lower needle EmptyString).
  - cbn [includes lower]. intros [H|H]%orb_true_iff; apply orb_true_iff.
    + left. apply (prefix_lower needle (String y hay) H).
    + right. by apply IH.
Qed.

(** X21. The mobile names are looked for without regard to letter case: a
    user agent that holds one of the eight names, itself or written in
    another case, is taken for mobile whatever the touch tests say, and
    such a device held upright is refused. The touch tests count only
    for a user agent that holds [Chrome], written exactly so: without a
    mobile name and without [Chrome] the device is never mobile and
    never refused. *)
Theorem checkIfMobile_by_name (n : navigator) (d : dom) :
  (∀ name recased, name ∈ mobileRegex →
     lower recased = lower (userAgent n) → includes name recased = true →
     checkIfMobile n = true ∧ (handleOrientation n d).1 = negb (portrait n)) ∧
  (existsb (λ name, includes_ci name (userAgent n)) mobileRegex = false →
   includes "Chrome" (userAgent n) = false →
   checkIfMobile n = false ∧ (handleOrientation n d).1 = true).
Proof.
  split.
  - intros name recased Hin Hcase Hinc.
    assert (Hm : checkIfMobile n = true).
    { unfold checkIfMobile.
      assert (existsb (λ name, includes_ci name (userAgent n)) mobileRegex = true) as ->.
      { apply existsb_exists. exists name. split; [by apply list_elem_of_In|].
        unfold includes_ci. rewrite <- Hcase. by apply includes_lower. }
      done. }
    split; [exact Hm|]. unfold handleOrientation. rewrite Hm. by destruct (portrait n).
  - intros Hnames Hchrome.
    assert (Hm : checkIfMobile n = false).
    { unfold checkIfMobile. by rewrite Hnames, Hchrome. }
    split; [exact Hm|]. unfold handleOrientation. by rewrite Hm.
Qed.

End PageFacts.
